(** * SoulBrowser Python SDK: task event streaming client

    A shallow embedding of
      - [sdk/python/soulbrowser_sdk/client.py]   (SoulBrowserClient),
      - [sdk/python/soulbrowser_sdk/gateway.py]  (SoulBrowserGatewayClient),
      - [examples/sdk/python/live_companion.py] and
        [examples/sdk/python/chat_plan.py]       (the consuming loops),
    together with the properties the design document states about them.

    Conventions.  A Python [str] is a Rocq [string] (its UTF-8 bytes).  A
    decoded JSON document is a [json] value; a JSON object is a Python
    [dict], modelled as a [gmap string json].  Code that can raise returns a
    [result]; the exception carried is the Python exception class. *)

From Stdlib Require Import Ascii String ZArith.
From stdpp Require Import gmap strings list pretty.

Set Warnings "-register-all".
Open Scope string_scope.

(** ** Python values and exceptions *)

(** What [json.loads] returns.  Integers are Python [int]s.  A number with a
    fraction or an exponent is a Python [float]; it is carried by its
    lexeme, since no operation of the SDK computes with it. *)
Inductive json :=
  | JNull
  | JBool (b : bool)
  | JInt (z : Z)
  | JFloat (lexeme : string)
  | JStr (s : string)
  | JArr (items : list json)
  | JObj (fields : gmap string json).

(** The exception classes the modelled code can raise.  [TransportError]
    stands for whatever the injected HTTP or WebSocket object raises. *)
Inductive exn :=
  | JSONDecodeError
  | AttributeError
  | KeyError
  | TypeError
  | ValueError (msg : string)
  | RuntimeError (msg : string)
  | RecursionError
  | SystemExit (msg : string)
  | TransportError (msg : string).

Inductive result (A : Type) :=
  | Ok (a : A)
  | Raise (e : exn).
Arguments Ok {A} a.
Arguments Raise {A} e.

(** Sequencing: an exception raised by the first statement propagates. *)
#[export] Instance result_ret : MRet result := λ A a, Ok a.
#[export] Instance result_bind : MBind result := λ A B k r,
  match r with
  | Ok a => k a
  | Raise e => Raise e
  end.
#[export] Instance result_fmap : FMap result := λ A B f r,
  match r with
  | Ok a => Ok (f a)
  | Raise e => Raise e
  end.

(** [bool(v)]: Python truthiness.  A float is falsy when it is zero: when
    its literal has no digit but [0] before the exponent, or stands for a
    number that [float] rounds to zero, one of at most 2^-1075, half the
    smallest positive float.  [float_mantissa] reads the literal as
    [m / 10^places] times ten to its exponent. *)
Fixpoint float_mantissa (s : string) (m : Z) (point : bool) (places : Z)
    : Z * Z * string :=
  match s with
  | EmptyString => (m, places, EmptyString)
  | String c rest =>
      if (Ascii.eqb c "e" || Ascii.eqb c "E")%bool then (m, places, rest)
      else if Ascii.eqb c "." then float_mantissa rest m true places
      else if Ascii.eqb c "-" then float_mantissa rest m point places
      else float_mantissa rest (10 * m + (Z.of_nat (nat_of_ascii c) - 48)) point
             (if point then places + 1 else places)%Z
  end.

Fixpoint float_exponent (s : string) (acc : Z) : Z :=
  match s with
  | EmptyString => acc
  | String c rest =>
      if Ascii.eqb c "+" then float_exponent rest acc
      else if Ascii.eqb c "-" then (- float_exponent rest acc)%Z
      else float_exponent rest (10 * acc + (Z.of_nat (nat_of_ascii c) - 48))
  end.

(** [NaN] and the infinities are not zero.  A literal [m / 10^k] with [k]
    of at least [Z.log2 m + 325] is below 2^-1075 (see
    [tiny_float_shortcut]); the power of ten is not computed for it. *)
Definition float_nonzero (lexeme : string) : bool :=
  match lexeme with
  | String "N" _ | String "I" _ | String "-" (String "I" _) => true
  | _ =>
      let '(m, places, exp) := float_mantissa lexeme 0 false 0 in
      let k := (places - float_exponent exp 0)%Z in
      if (m =? 0)%Z then false
      else if (k <=? 0)%Z then true
      else if (Z.log2 m + 325 <=? k)%Z then false
      else (10 ^ k <? m * 2 ^ 1075)%Z
  end.

Definition truthy (v : json) : bool :=
  match v with
  | JNull => false
  | JBool b => b
  | JInt z => negb (z =? 0)%Z
  | JFloat lexeme => float_nonzero lexeme
  | JStr s => negb (String.eqb s "")
  | JArr items => match items with [] => false | _ => true end
  | JObj fields => negb (bool_decide (fields = ∅))
  end.

(** [d.get(key, fallback)]: only a [dict] has the method; [d.get(key)] is
    [d.get(key, None)]. *)
Definition py_get (d : json) (key : string) (fallback : json) : result json :=
  match d with
  | JObj fields => Ok (default fallback (fields !! key))
  | _ => Raise AttributeError
  end.

(** [d[key]] with a [str] key. *)
Definition py_getitem (d : json) (key : string) : result json :=
  match d with
  | JObj fields =>
      match fields !! key with
      | Some v => Ok v
      | None => Raise KeyError
      end
  | _ => Raise TypeError
  end.

(** [v == 'literal']. *)
Definition py_eq_str (v : json) (lit : string) : bool :=
  match v with
  | JStr s => String.eqb s lit
  | _ => false
  end.

(** [v in {'a', 'b', ...}]: membership in a set of [str] literals hashes
    [v] first, which a [list] or a [dict] refuses. *)
Definition py_in_str_set (v : json) (lits : list string) : result bool :=
  match v with
  | JArr _ | JObj _ => Raise TypeError
  | JStr s => Ok (existsb (String.eqb s) lits)
  | _ => Ok false
  end.

(** ** Terminal-state detection in the consuming loops *)

Module LiveCompanion.

(** live_companion.py, lines 61-64: whether the loop leaves on [event]. *)
Definition is_terminal (event : json) : result bool :=
  name ← py_get event "event" JNull;
  if py_eq_str name "status" then
    payload ← py_getitem event "status";
    status ← py_get payload "status" JNull;
    py_in_str_set status ["success"; "failed"]
  else Ok false.

End LiveCompanion.

Module ChatPlan.

(** chat_plan.py, lines 38-39: the [elif] that leaves the loop. *)
Definition is_terminal (event : json) : result bool :=
  name ← py_get event "event" JNull;
  if py_eq_str name "status" then
    payload ← py_get event "status" (JObj ∅);
    status ← py_get payload "status" JNull;
    py_in_str_set status ["success"; "failed"]
  else Ok false.

End ChatPlan.

(** ** [json.loads]

    The decoder of Python's standard [json] module, which
    [iter_task_stream] applies to every frame.  The functions follow
    [json.scanner] and [json.decoder]: [scan_once] dispatches on the first
    character, [JSONArray] and [JSONObject] loop over the items, and
    [scanstring] reads a string literal in strict mode.  The decoder gives
    up in two ways besides [JSONDecodeError]: it raises [RecursionError]
    when objects and arrays are nested too deep, and [ValueError] when an
    integer has more digits than [int] converts.  The recursion of the
    scanner is bounded by [fuel]; [loads] supplies enough of it (see
    [scan_once_fuel] below). *)
Module Json.

Definition dquote : ascii := "034".
Definition backslash : ascii := "092".

Definition is_ws (c : ascii) : bool :=
  Ascii.eqb c " " || Ascii.eqb c "009" || Ascii.eqb c "010" || Ascii.eqb c "013".

Fixpoint skip_ws (s : string) : string :=
  match s with
  | String c rest => if is_ws c then skip_ws rest else s
  | EmptyString => s
  end.

Definition is_digit (c : ascii) : bool :=
  let n := nat_of_ascii c in (48 <=? n)%nat && (n <=? 57)%nat.

Definition digit_value (c : ascii) : Z := Z.of_nat (nat_of_ascii c) - 48.

(** The longest prefix of digits, and what follows it. *)
Fixpoint span_digits (s : string) : string * string :=
  match s with
  | String c rest =>
      if is_digit c then
        let '(ds, tl) := span_digits rest in (String c ds, tl)
      else (EmptyString, s)
  | EmptyString => (EmptyString, s)
  end.

Fixpoint int_of_digits (acc : Z) (ds : string) : Z :=
  match ds with
  | String c rest => int_of_digits (10 * acc + digit_value c) rest
  | EmptyString => acc
  end.

(** The optional fraction of [NUMBER_RE]: a dot and at least one digit. *)
Definition match_frac (s : string) : string * string :=
  match s with
  | String "." rest =>
      match span_digits rest with
      | (EmptyString, _) => (EmptyString, s)
      | (ds, tl) => (String "." ds, tl)
      end
  | _ => (EmptyString, s)
  end.

(** The optional exponent of [NUMBER_RE]: [e] or [E], an optional sign,
    at least one digit. *)
Definition match_exp (s : string) : string * string :=
  match s with
  | String e rest =>
      if Ascii.eqb e "e" || Ascii.eqb e "E" then
        let '(sign, rest') :=
          match rest with
          | String "-" r => ("-", r)
          | String "+" r => ("+", r)
          | _ => (EmptyString, rest)
          end in
        match span_digits rest' with
        | (EmptyString, _) => (EmptyString, s)
        | (ds, tl) => (String e (sign ++ ds), tl)
        end
      else (EmptyString, s)
  | EmptyString => (EmptyString, s)
  end.

(** The integer part of [NUMBER_RE] (an optional minus sign, then a
    single zero or a digit string that does not start with zero): the
    sign, the digits, the rest. *)
Definition match_integer (s : string) : option (bool * string * string) :=
  let '(neg, s1) :=
    match s with
    | String "-" r => (true, r)
    | _ => (false, s)
    end in
  match s1 with
  | String c rest =>
      if Ascii.eqb c "0" then Some (neg, "0", rest)
      else if is_digit c then
        let '(ds, tl) := span_digits rest in Some (neg, String c ds, tl)
      else None
  | EmptyString => None
  end.

(** [sys.int_info.default_max_str_digits]: [int] refuses a literal with
    more digits. *)
Definition max_str_digits : nat := 4300.

(** [int(digits)], the [parse_int] of the decoder. *)
Definition parse_int (neg : bool) (ds : string) : result json :=
  if (max_str_digits <? String.length ds)%nat
  then Raise (ValueError
                ("Exceeds the limit (4300 digits) for integer string conversion: value has "
                 ++ pretty (String.length ds)
                 ++ " digits; use sys.set_int_max_str_digits() to increase the limit"))
  else
    let n := int_of_digits 0 ds in
    Ok (JInt (if neg then - n else n)).

(** [NUMBER_RE.match]: an [int] without fraction and exponent, a [float]
    otherwise. *)
Definition match_number (s : string) : option (result json * string) :=
  match match_integer s with
  | None => None
  | Some (neg, ds, s1) =>
      let '(frac, s2) := match_frac s1 in
      let '(exp, s3) := match_exp s2 in
      let sign := if neg : bool then "-" else "" in
      match frac, exp with
      | EmptyString, EmptyString => Some (parse_int neg ds, s3)
      | _, _ => Some (Ok (JFloat (sign ++ ds ++ frac ++ exp)), s3)
      end
  end.

(** [s.startswith(lit)], returning what follows. *)
Fixpoint strip_prefix (lit s : string) : option string :=
  match lit, s with
  | EmptyString, _ => Some s
  | String a lit', String b s' =>
      if Ascii.eqb a b then strip_prefix lit' s' else None
  | String _ _, EmptyString => None
  end.

(** *** String literals *)

Definition hex_value (c : ascii) : option N :=
  let n := N_of_ascii c in
  if (48 <=? n)%N && (n <=? 57)%N then Some (n - 48)%N
  else if (65 <=? n)%N && (n <=? 70)%N then Some (n - 55)%N
  else if (97 <=? n)%N && (n <=? 102)%N then Some (n - 87)%N
  else None.

Definition byte (n : N) : ascii := ascii_of_N n.

(** A code point as UTF-8 (a lone surrogate is written like any other
    three-byte code point). *)
Definition utf8_encode (cp : N) : string :=
  if (cp <? 128)%N then String (byte cp) ""
  else if (cp <? 2048)%N then
    String (byte (192 + cp / 64)) (String (byte (128 + cp mod 64)) "")
  else if (cp <? 65536)%N then
    String (byte (224 + cp / 4096))
      (String (byte (128 + (cp / 64) mod 64))
         (String (byte (128 + cp mod 64)) ""))
  else
    String (byte (240 + cp / 262144))
      (String (byte (128 + (cp / 4096) mod 64))
         (String (byte (128 + (cp / 64) mod 64))
            (String (byte (128 + cp mod 64)) ""))).

Definition is_high_surrogate (cp : N) : bool := (55296 <=? cp)%N && (cp <=? 56319)%N.
Definition is_low_surrogate (cp : N) : bool := (56320 <=? cp)%N && (cp <=? 57343)%N.
Definition join_surrogates (hi lo : N) : N :=
  (65536 + (hi - 55296) * 1024 + (lo - 56320))%N.

(** [BACKSLASH]: the one-character escapes. *)
Definition simple_escape (c : ascii) : option ascii :=
  if Ascii.eqb c dquote then Some dquote
  else if Ascii.eqb c backslash then Some backslash
  else if Ascii.eqb c "/" then Some "/"%char
  else if Ascii.eqb c "b" then Some "008"%char
  else if Ascii.eqb c "f" then Some "012"%char
  else if Ascii.eqb c "n" then Some "010"%char
  else if Ascii.eqb c "r" then Some "013"%char
  else if Ascii.eqb c "t" then Some "009"%char
  else None.

(** Where the scan of a literal stands: between characters, after a
    backslash, or inside [\uXXXX] with [more] digits after the next. *)
Inductive sstate :=
  | Plain
  | Escaped
  | Hex (more : nat) (acc : N).

Definition flush (high : option N) : string :=
  match high with
  | Some hi => utf8_encode hi
  | None => ""
  end.

Definition emit (out : string) (k : option (string * string)) : option (string * string) :=
  match k with
  | Some (str, rest) => Some (out ++ str, rest)
  | None => None
  end.

(** [scanstring], entered after the opening quote.  [high] is a high
    surrogate read from [\uXXXX] that waits for its low half. *)
Fixpoint scanstring (st : sstate) (high : option N) (s : string) : option (string * string) :=
  match s with
  | EmptyString => None
  | String c rest =>
      match st with
      | Plain =>
          if Ascii.eqb c dquote then Some (flush high, rest)
          else if Ascii.eqb c backslash then scanstring Escaped high rest
          else if (N_of_ascii c <? 32)%N then None
          else emit (flush high ++ String c "") (scanstring Plain None rest)
      | Escaped =>
          if Ascii.eqb c "u" then scanstring (Hex 3 0) high rest
          else
            match simple_escape c with
            | Some e => emit (flush high ++ String e "") (scanstring Plain None rest)
            | None => None
            end
      | Hex more acc =>
          match hex_value c with
          | None => None
          | Some d =>
              let uni := (16 * acc + d)%N in
              match more with
              | S more' => scanstring (Hex more' uni) high rest
              | O =>
                  match high with
                  | Some hi =>
                      if is_low_surrogate uni then
                        emit (utf8_encode (join_surrogates hi uni)) (scanstring Plain None rest)
                      else if is_high_surrogate uni then
                        emit (utf8_encode hi) (scanstring Plain (Some uni) rest)
                      else
                        emit (utf8_encode hi ++ utf8_encode uni) (scanstring Plain None rest)
                  | None =>
                      if is_high_surrogate uni then scanstring Plain (Some uni) rest
                      else emit (utf8_encode uni) (scanstring Plain None rest)
                  end
              end
          end
      end
  end.

(** *** Values *)

(** What a scan gives: a value and the text after it, a syntax error, an
    exception of another kind, or the end of the fuel. *)
Inductive parse (A : Type) :=
  | Parsed (a : A) (rest : string)
  | Malformed
  | Refused (e : exn)
  | OutOfFuel.
Arguments Parsed {A} a rest.
Arguments Malformed {A}.
Arguments Refused {A} e.
Arguments OutOfFuel {A}.

(** The interpreter's recursion limit, [sys.getrecursionlimit()], and the
    nesting it leaves to the decoder.  CPython 3.11 enters every object and
    every array through its recursion guard; when an example program pulls
    an event, seven levels are in use (the module, [main], the generator,
    [loads], [decode], [raw_decode] and the call of the scanner). *)
Definition recursion_limit : nat := 1000.
Definition nesting_limit : nat := recursion_limit - 7.

(** The constants that [scan_once] tries when no number matches. *)
Definition scan_constant (s : string) : parse json :=
  match strip_prefix "NaN" s with
  | Some rest => Parsed (JFloat "NaN") rest
  | None =>
      match strip_prefix "Infinity" s with
      | Some rest => Parsed (JFloat "Infinity") rest
      | None =>
          match strip_prefix "-Infinity" s with
          | Some rest => Parsed (JFloat "-Infinity") rest
          | None => Malformed
          end
      end
  end.

Definition scan_atom (s : string) : parse json :=
  match strip_prefix "null" s with
  | Some rest => Parsed JNull rest
  | None =>
      match strip_prefix "true" s with
      | Some rest => Parsed (JBool true) rest
      | None =>
          match strip_prefix "false" s with
          | Some rest => Parsed (JBool false) rest
          | None =>
              match match_number s with
              | Some (Ok v, rest) => Parsed v rest
              | Some (Raise e, _) => Refused e
              | None => scan_constant s
              end
          end
      end
  end.

Fixpoint scan_once (depth fuel : nat) (s : string) {struct fuel} : parse json :=
  match fuel with
  | O => OutOfFuel
  | S fuel =>
      match s with
      | EmptyString => Malformed
      | String c rest =>
          if Ascii.eqb c dquote then
            match scanstring Plain None rest with
            | Some (str, rest') => Parsed (JStr str) rest'
            | None => Malformed
            end
          else if Ascii.eqb c "{" then
            (* JSONObject, behind the recursion guard *)
            match depth with
            | O => Refused RecursionError
            | S depth =>
                match skip_ws rest with
                | String c' rest' =>
                    if Ascii.eqb c' "}" then Parsed (JObj ∅) rest'
                    else if Ascii.eqb c' dquote then object_items depth fuel rest' ∅
                    else Malformed
                | EmptyString => Malformed
                end
            end
          else if Ascii.eqb c "[" then
            (* JSONArray, behind the recursion guard *)
            match depth with
            | O => Refused RecursionError
            | S depth =>
                match skip_ws rest with
                | String "]" rest' => Parsed (JArr []) rest'
                | items => array_items depth fuel items []
                end
            end
          else scan_atom s
      end
  end

(** The loop of [JSONArray]; [s] is where the next value starts and
    [seen] holds the values read so far, last first. *)
with array_items (depth fuel : nat) (s : string) (seen : list json)
    {struct fuel} : parse json :=
  match fuel with
  | O => OutOfFuel
  | S fuel =>
      match scan_once depth fuel s with
      | Parsed v rest =>
          match skip_ws rest with
          | String c rest' =>
              if Ascii.eqb c "]" then Parsed (JArr (reverse (v :: seen))) rest'
              else if Ascii.eqb c ","
              then array_items depth fuel (skip_ws rest') (v :: seen)
              else Malformed
          | EmptyString => Malformed
          end
      | Malformed => Malformed
      | Refused e => Refused e
      | OutOfFuel => OutOfFuel
      end
  end

(** The loop of [JSONObject]; [s] follows the opening quote of a key and
    [seen] is the [dict] built so far (a repeated key keeps its last
    value). *)
with object_items (depth fuel : nat) (s : string) (seen : gmap string json)
    {struct fuel} : parse json :=
  match fuel with
  | O => OutOfFuel
  | S fuel =>
      match scanstring Plain None s with
      | None => Malformed
      | Some (key, rest) =>
          match skip_ws rest with
          | String ":" rest1 =>
              match scan_once depth fuel (skip_ws rest1) with
              | Parsed v rest2 =>
                  match skip_ws rest2 with
                  | String c rest3 =>
                      if Ascii.eqb c "}" then Parsed (JObj (<[key := v]> seen)) rest3
                      else if Ascii.eqb c "," then
                        match skip_ws rest3 with
                        | String c' rest4 =>
                            if Ascii.eqb c' dquote
                            then object_items depth fuel rest4 (<[key := v]> seen)
                            else Malformed
                        | EmptyString => Malformed
                        end
                      else Malformed
                  | EmptyString => Malformed
                  end
              | Malformed => Malformed
              | Refused e => Refused e
              | OutOfFuel => OutOfFuel
              end
          | _ => Malformed
          end
      end
  end.

Definition fuel_for (s : string) : nat := S (2 * String.length s).

(** [json.loads(s)]: one document, surrounded by optional whitespace. *)
Definition loads (s : string) : result json :=
  match scan_once nesting_limit (fuel_for s) (skip_ws s) with
  | Parsed v rest =>
      match skip_ws rest with
      | EmptyString => Ok v
      | String _ _ => Raise JSONDecodeError
      end
  | Malformed => Raise JSONDecodeError
  | Refused e => Raise e
  | OutOfFuel => Raise RecursionError
  end.

End Json.

(** A JSON text, written without quote characters in the source: [q s] is
    [s] between double quotes. *)
Definition q (s : string) : string := String Json.dquote (s ++ String Json.dquote "").

(** ** The collaborators: [httpx] and the WebSocket class

    Both are objects of third-party libraries (or objects the caller
    injects); the SDK only calls their methods.  They are modelled by what
    those calls return. *)

(** [httpx.URL(...)], as far as [_build_ws_url] reads it. *)
Record URL := {
  scheme : string;
  host : string;
  port : option Z;
}.

Record Request := {
  req_url : string;
  req_json : json;
  req_headers : option (gmap string string);
}.

(** [httpx.Response]: what [raise_for_status()] raises, if anything, and
    the body that [json()] decodes.  The body is held as the text it
    encodes: [json()] is modelled for a body in UTF-8 without a byte order
    mark. *)
Record Response := {
  status_error : option exn;
  content : string;
}.

Definition raise_for_status (resp : Response) : result () :=
  match status_error resp with
  | Some e => Raise e
  | None => Ok ()
  end.

Definition resp_json (resp : Response) : result json := Json.loads (content resp).

Inductive ClientState := UNOPENED | OPENED | CLOSED.

(** [httpx.Client]: its lifecycle state, the requests sent so far, and the
    remote side. *)
Record HttpClient := {
  state : ClientState;
  sent : list Request;
  remote : Request → result Response;
}.

Definition http_post (req : Request) (h : HttpClient) : HttpClient * result Response :=
  match state h with
  | CLOSED => (h, Raise (RuntimeError "Cannot send a request, as the client has been closed."))
  | _ => ({| state := OPENED; sent := sent h ++ [req]; remote := remote h |}, remote h req)
  end.

Definition http_close (h : HttpClient) : HttpClient :=
  {| state := CLOSED; sent := sent h; remote := remote h |}.

(** What one [recv()] produces. *)
Inductive recv_result :=
  | Message (text : string)
  | NoMessage
  | RecvRaises (e : exn).

(** A WebSocket object: the URL it was connected to, what the handshake
    raises, the results of the [recv()] calls to come, and whether
    [close()] was called. *)
Record WebSocket := {
  connected_to : option string;
  handshake : option exn;
  inbox : list recv_result;
  closed : bool;
}.

Definition ws_connect (url : string) (ws : WebSocket) : result WebSocket :=
  match handshake ws with
  | Some e => Raise e
  | None =>
      Ok {| connected_to := Some url; handshake := handshake ws;
            inbox := inbox ws; closed := closed ws |}
  end.

(** [ws.recv()]; [None] when nothing more will arrive and the call blocks. *)
Definition ws_recv (ws : WebSocket) : option (recv_result * WebSocket) :=
  match inbox ws with
  | [] => None
  | r :: rest =>
      Some (r, {| connected_to := connected_to ws; handshake := handshake ws;
                  inbox := rest; closed := closed ws |})
  end.

Definition ws_close (ws : WebSocket) : WebSocket :=
  {| connected_to := connected_to ws; handshake := handshake ws;
     inbox := inbox ws; closed := true |}.

(** What the interpreter and the installed libraries provide. *)
Record Runtime := {
  (** [httpx.URL(text)] *)
  httpx_URL : string → result URL;
  (** [httpx.Client(base_url=..., timeout=...)] *)
  httpx_Client : string → HttpClient;
  (** [websocket.WebSocket()], when [websocket-client] is installed *)
  websocket_WebSocket : option WebSocket;
  (** how an f-string renders a value; a [str] renders as itself *)
  py_format : json → string;
}.

(** [s.rstrip('/')] *)
Fixpoint rstrip_slash (s : string) : string :=
  match s with
  | EmptyString => EmptyString
  | String c rest =>
      match rstrip_slash rest with
      | EmptyString => if Ascii.eqb c "/" then EmptyString else String c EmptyString
      | rest' => String c rest'
      end
  end.

(** [x or y] for an optional [str] and for an optional [int]: [None], the
    empty string and zero are falsy. *)
Definition str_or (x : option string) (y : string) : string :=
  match x with
  | Some s => if String.eqb s "" then y else s
  | None => y
  end.

Definition int_or (x : option Z) (y : Z) : Z :=
  match x with
  | Some n => if (n =? 0)%Z then y else n
  | None => y
  end.

(** [if x:] for an optional [str]. *)
Definition str_truthy (x : option string) : bool :=
  match x with
  | Some s => negb (String.eqb s "")
  | None => false
  end.

(** [len(v)] *)
Definition py_len (v : json) : result nat :=
  match v with
  | JStr s => Ok (String.length s)
  | JArr items => Ok (length items)
  | JObj fields => Ok (size fields)
  | _ => Raise TypeError
  end.

(** [key.lower()] on ASCII letters.  Python also folds letters outside
    ASCII; none of them folds to a letter of the header name that
    [_build_headers] looks for. *)
Definition lower_ascii (c : ascii) : ascii :=
  let n := nat_of_ascii c in
  if (65 <=? n)%nat && (n <=? 90)%nat then ascii_of_nat (n + 32) else c.

Fixpoint lower (s : string) : string :=
  match s with
  | EmptyString => EmptyString
  | String c rest => String (lower_ascii c) (lower rest)
  end.

(** ** client.py *)
Module Client.

Record SoulBrowserClient := {
  _base_url : string;
  _owns_http : bool;
  _http : HttpClient;
  _websocket_class : option WebSocket;
}.

Definition set_http (h : HttpClient) (self : SoulBrowserClient) : SoulBrowserClient :=
  {| _base_url := _base_url self; _owns_http := _owns_http self;
     _http := h; _websocket_class := _websocket_class self |}.

Definition __init__ (rt : Runtime) (base_url : string)
    (http : option HttpClient) (websocket_class : option WebSocket) : SoulBrowserClient :=
  let base := rstrip_slash base_url in
  {| _base_url := base;
     _owns_http := match http with None => true | Some _ => false end;
     _http := default (httpx_Client rt base) http;
     _websocket_class :=
       match websocket_class with
       | Some cls => Some cls
       | None => websocket_WebSocket rt
       end |}.

Definition close (self : SoulBrowserClient) : SoulBrowserClient :=
  if _owns_http self then set_http (http_close (_http self)) self else self.

Definition _post (url : string) (payload : json) (self : SoulBrowserClient)
    : SoulBrowserClient * result json :=
  let '(h, r) :=
    http_post {| req_url := url; req_json := payload; req_headers := None |} (_http self) in
  (set_http h self,
   resp ← r;
   _ ← raise_for_status resp;
   resp_json resp).

Definition chat (payload : json) (self : SoulBrowserClient) : SoulBrowserClient * result json :=
  _post "/api/chat" payload self.

Definition _build_ws_url (rt : Runtime) (self : SoulBrowserClient) (path : string)
    : result string :=
  base ← httpx_URL rt (_base_url self);
  let scheme' := if String.eqb (scheme base) "https" then "wss" else "ws" in
  Ok (scheme' ++ "://" ++ host base ++ ":"
        ++ pretty (int_or (port base) (if String.eqb scheme' "wss" then 443 else 80)%Z)
        ++ path).

Definition open_task_stream (rt : Runtime) (self : SoulBrowserClient)
    (task_id : string) (via_gateway : bool) (path : option string) : result WebSocket :=
  match _websocket_class self with
  | None =>
      Raise (RuntimeError
        ("No WebSocket implementation available. Install `websocket-client` "
         ++ "or pass `websocket_class` to the client."))
  | Some cls =>
      let target_path :=
        str_or path
          (if via_gateway then "/v1/tasks/" ++ task_id ++ "/stream"
           else "/api/tasks/" ++ task_id ++ "/stream") in
      url ← _build_ws_url rt self target_path;
      ws_connect url cls
  end.

(** *** [iter_task_stream]

    A generator object is either suspended (not yet started, or at its
    [yield]) or finished (it returned or raised). *)
Inductive generator := Suspended | Finished.

(** What [next(gen)] gives the caller. *)
Inductive pull :=
  | Yield (event : json)
  | StopIteration
  | Raised (e : exn)
  | Blocks.

(** client.py, lines 149-154.  One [next()] on the generator: the loop
    body up to its [yield]. *)
Definition iter_task_stream (gen : generator) (ws : WebSocket) : pull * generator * WebSocket :=
  match gen with
  | Finished => (StopIteration, Finished, ws)
  | Suspended =>
      match ws_recv ws with
      | None => (Blocks, Suspended, ws)
      | Some (NoMessage, ws') => (StopIteration, Finished, ws')
      | Some (RecvRaises e, ws') => (Raised e, Finished, ws')
      | Some (Message message, ws') =>
          match Json.loads message with
          | Ok event => (Yield event, Suspended, ws')
          | Raise e => (Raised e, Finished, ws')
          end
      end
  end.

(** [n] successive [next()] calls. *)
Fixpoint nexts (n : nat) (gen : generator) (ws : WebSocket)
    : list pull * generator * WebSocket :=
  match n with
  | O => ([], gen, ws)
  | S n' =>
      let '(p, gen', ws') := iter_task_stream gen ws in
      let '(ps, gen'', ws'') := nexts n' gen' ws' in
      (p :: ps, gen'', ws'')
  end.

(** How a [for event in iter_task_stream(ws): ...] statement ends. *)
Inductive loop_end :=
  | Break
  | Exhausted
  | Propagates (e : exn)
  | Blocked
  | NoFuel.

Record loop_run := {
  observed : list json;
  ending : loop_end;
  gen_after : generator;
  ws_after : WebSocket;
}.

(** The [for] statement over the generator.  [body] is the loop body; it
    answers whether it executed [break].  Every iteration takes one
    message from the socket, so [for_loop] gives [for_loop_fuel] one unit
    of fuel per message. *)
Fixpoint for_loop_fuel (fuel : nat) (body : json → result bool)
    (gen : generator) (ws : WebSocket) (seen : list json) : loop_run :=
  match iter_task_stream gen ws with
  | (Yield event, gen', ws') =>
      match body event with
      | Raise e => {| observed := seen ++ [event]; ending := Propagates e;
                      gen_after := gen'; ws_after := ws' |}
      | Ok true => {| observed := seen ++ [event]; ending := Break;
                      gen_after := gen'; ws_after := ws' |}
      | Ok false =>
          match fuel with
          | O => {| observed := seen ++ [event]; ending := NoFuel;
                    gen_after := gen'; ws_after := ws' |}
          | S fuel' => for_loop_fuel fuel' body gen' ws' (seen ++ [event])
          end
      end
  | (StopIteration, gen', ws') =>
      {| observed := seen; ending := Exhausted; gen_after := gen'; ws_after := ws' |}
  | (Raised e, gen', ws') =>
      {| observed := seen; ending := Propagates e; gen_after := gen'; ws_after := ws' |}
  | (Blocks, gen', ws') =>
      {| observed := seen; ending := Blocked; gen_after := gen'; ws_after := ws' |}
  end.

Definition for_loop (body : json → result bool) (ws : WebSocket) : loop_run :=
  for_loop_fuel (length (inbox ws)) body Suspended ws [].

End Client.

(** ** gateway.py *)
Module Gateway.

Record SoulBrowserGatewayClient := {
  _base_url : string;
  _tenant_id : string;
  _owns_http : bool;
  _http : HttpClient;
  _api_key : option string;
  _tenant_token : option string;
  _static_headers : gmap string string;
}.

Definition set_http (h : HttpClient) (self : SoulBrowserGatewayClient)
    : SoulBrowserGatewayClient :=
  {| _base_url := _base_url self; _tenant_id := _tenant_id self;
     _owns_http := _owns_http self; _http := h;
     _api_key := _api_key self; _tenant_token := _tenant_token self;
     _static_headers := _static_headers self |}.

Definition __init__ (rt : Runtime) (tenant_id : string) (base_url : string)
    (http : option HttpClient) (api_key tenant_token : option string)
    (headers : option (gmap string string)) : result SoulBrowserGatewayClient :=
  if String.eqb tenant_id "" then Raise (ValueError "tenant_id is required")
  else
    let base := rstrip_slash base_url in
    Ok {| _base_url := base;
          _tenant_id := tenant_id;
          _owns_http := match http with None => true | Some _ => false end;
          _http := default (httpx_Client rt base) http;
          _api_key := api_key;
          _tenant_token := tenant_token;
          _static_headers := default ∅ headers |}.

Definition close (self : SoulBrowserGatewayClient) : SoulBrowserGatewayClient :=
  if _owns_http self then set_http (http_close (_http self)) self else self.

(** A method that assigns to [self] returns the object after the call
    next to what the call returned or raised. *)
Definition set_tenant (tenant_id : string) (self : SoulBrowserGatewayClient)
    : SoulBrowserGatewayClient * result () :=
  if String.eqb tenant_id "" then (self, Raise (ValueError "tenant_id must not be empty"))
  else
    ({| _base_url := _base_url self; _tenant_id := tenant_id;
        _owns_http := _owns_http self; _http := _http self;
        _api_key := _api_key self; _tenant_token := _tenant_token self;
        _static_headers := _static_headers self |}, Ok ()).

Definition configure_auth (api_key tenant_token : option string)
    (self : SoulBrowserGatewayClient) : SoulBrowserGatewayClient :=
  {| _base_url := _base_url self; _tenant_id := _tenant_id self;
     _owns_http := _owns_http self; _http := _http self;
     _api_key := match api_key with Some k => Some k | None => _api_key self end;
     _tenant_token :=
       match tenant_token with Some t => Some t | None => _tenant_token self end;
     _static_headers := _static_headers self |}.

Definition _build_headers (self : SoulBrowserGatewayClient)
    (tenant_id : option string) (overrides : option (gmap string string))
    : gmap string string :=
  (* the dict display: later entries replace earlier ones *)
  let headers : gmap string string :=
    _static_headers self
      ∪ <["x-tenant-id" := str_or tenant_id (_tenant_id self)]>
          (<["content-type" := "application/json"]> ∅) in
  let headers : gmap string string :=
    match overrides with
    | Some o => if bool_decide (o = ∅) then headers else o ∪ headers
    | None => headers
    end in
  let lowered : gset string := set_map lower (dom headers) in
  let headers :=
    match _api_key self with
    | Some key =>
        if negb (String.eqb key "") && bool_decide ("authorization" ∉ lowered)
        then <["Authorization" := "Bearer " ++ key]> headers
        else headers
    | None => headers
    end in
  match _tenant_token self with
  | Some token =>
      if negb (String.eqb token "") && bool_decide (headers !! "x-tenant-token" = None)
      then <["x-tenant-token" := token]> headers
      else headers
  | None => headers
  end.

(** The request both [run_tool] and [run_plan] send once the payload is
    accepted. *)
Definition post_json (url : string) (payload : json)
    (request_headers : gmap string string) (self : SoulBrowserGatewayClient)
    : SoulBrowserGatewayClient * result Response :=
  let '(h, r) :=
    http_post {| req_url := url; req_json := payload;
                 req_headers := Some request_headers |} (_http self) in
  (set_http h self, resp ← r; _ ← raise_for_status resp; Ok resp).

Definition run_tool (payload : json) (tenant_id : option string)
    (headers : option (gmap string string)) (self : SoulBrowserGatewayClient)
    : SoulBrowserGatewayClient * result json :=
  match py_get payload "tool" JNull with
  | Raise e => (self, Raise e)
  | Ok tool =>
      if negb (truthy tool) then (self, Raise (ValueError "'tool' is required in the payload"))
      else
        let request_headers := _build_headers self tenant_id headers in
        let '(self', r) := post_json "/v1/tools/run" payload request_headers self in
        (self', response ← r; resp_json response)
  end.

(** [GatewayPlanRunResponse] applied to the unpacked [data]: a [dict]
    built from a mapping. *)
Definition GatewayPlanRunResponse (data : json) : result json :=
  match data with
  | JObj fields => Ok (JObj fields)
  | _ => Raise TypeError
  end.

Definition run_plan (payload : json) (tenant_id : option string)
    (headers : option (gmap string string)) (self : SoulBrowserGatewayClient)
    : SoulBrowserGatewayClient * result json :=
  match py_get payload "plan" JNull with
  | Raise e => (self, Raise e)
  | Ok plan =>
      if negb (truthy plan) then (self, Raise (ValueError "'plan' is required in the payload"))
      else
        let request_headers := _build_headers self tenant_id headers in
        let '(self', r) := post_json "/v1/tasks/run" payload request_headers self in
        (self', response ← r; data ← resp_json response; GatewayPlanRunResponse data)
  end.

End Gateway.

(** ** The example programs

    What a run of [main] leaves behind: the client, the socket if one was
    opened, the events the loop received, and how the program ended.
    Printing is not modelled. *)
Inductive finish :=
  | Returns
  | Fails (e : exn)
  | Hangs.

Record Run := {
  client_after : Client.SoulBrowserClient;
  socket : option WebSocket;
  events : list json;
  outcome : finish;
}.

(** The request of both examples. *)
Definition chat_payload (prompt : string) : json :=
  JObj (<["prompt" := JStr prompt]>
          (<["execute" := JBool true]>
             (<["capture_context" := JBool true]> ∅))).

(** [try: <loop> finally: ws.close()]: the socket is closed unless the loop
    never ends. *)
Definition close_after_loop (run : Client.loop_run) : WebSocket * finish :=
  match Client.ending run with
  | Client.Break | Client.Exhausted => (ws_close (Client.ws_after run), Returns)
  | Client.Propagates e => (ws_close (Client.ws_after run), Fails e)
  | Client.Blocked | Client.NoFuel => (Client.ws_after run, Hangs)
  end.

Module ChatPlanMain.

(** chat_plan.py, lines 35-39. *)
Definition loop_body (event : json) : result bool :=
  name ← py_get event "event" JNull;
  if py_eq_str name "overlay" then
    overlay ← py_get event "overlay" (JObj ∅);
    _ ← py_get overlay "source" JNull;
    _ ← py_get overlay "data" JNull;
    Ok false
  else ChatPlan.is_terminal event.

(** chat_plan.py, lines 24-27: from the chat response to the task
    identifier. *)
Definition task_id_of (chat : json) : result json :=
  plan0 ← py_get chat "plan" (JObj ∅);
  plan ← py_get plan0 "plan" (JObj ∅);
  _ ← py_get chat "success" JNull;
  steps ← py_get plan "steps" (JArr []);
  _ ← py_len steps;
  py_get plan "task_id" JNull.

Definition main (rt : Runtime) (base_url prompt : string) : Run :=
  let client := Client.__init__ rt base_url None None in
  let '(client, chat) := Client.chat (chat_payload prompt) client in
  (* the outer [finally: client.close()] runs on every way out *)
  let leave socket events outcome :=
    {| client_after := Client.close client; socket := socket;
       events := events; outcome := outcome |} in
  match chat ≫= task_id_of with
  | Raise e => leave None [] (Fails e)
  | Ok task_id =>
      if negb (truthy task_id) then leave None [] Returns
      else
        match Client.open_task_stream rt client (py_format rt task_id) false None with
        | Raise e => leave None [] (Fails e)
        | Ok ws =>
            let run := Client.for_loop loop_body ws in
            match close_after_loop run with
            | (ws', Hangs) =>
                {| client_after := client; socket := Some ws';
                   events := Client.observed run; outcome := Hangs |}
            | (ws', outcome) => leave (Some ws') (Client.observed run) outcome
            end
        end
  end.

End ChatPlanMain.

Module LiveCompanionMain.

(** [pretty_event], lines 22-33: the text is printed; what matters here
    is whether building it raises. *)
Definition pretty_event (event : json) : result () :=
  name ← py_get event "event" JNull;
  if py_eq_str name "overlay" then
    overlay ← py_get event "overlay" (JObj ∅);
    _ ← py_get overlay "source" JNull;
    data ← py_get overlay "data" (JObj ∅);
    _ ← py_get data "title" JNull;
    Ok ()
  else if py_eq_str name "annotation" then
    annotation ← py_get event "annotation" (JObj ∅);
    _ ← py_get annotation "note" JNull;
    Ok ()
  else if py_eq_str name "status" then
    status ← py_get event "status" (JObj ∅);
    value ← py_get status "status" JNull;
    (* [.upper()] exists on [str] only *)
    match value with
    | JStr _ => Ok ()
    | _ => Raise AttributeError
    end
  else Ok ().

(** live_companion.py, lines 60-64. *)
Definition loop_body (event : json) : result bool :=
  _ ← pretty_event event;
  LiveCompanion.is_terminal event.

(** live_companion.py, lines 50-51. *)
Definition task_id_of (chat : json) : result json :=
  plan0 ← py_get chat "plan" (JObj ∅);
  plan ← py_get plan0 "plan" (JObj ∅);
  py_get plan "task_id" JNull.

(** live_companion.py, lines 36-68.  The calls of [print] outside the loop
    are taken to return; the one of line 57 stands between
    [open_task_stream] and the [try] whose [finally] closes the socket. *)
Definition main (rt : Runtime) (prompt base_url : string) (gateway : bool)
    (gateway_url : string) : Run :=
  let client :=
    Client.__init__ rt (if gateway then gateway_url else base_url) None None in
  let '(client, chat) := Client.chat (chat_payload prompt) client in
  let leave socket events outcome :=
    {| client_after := client; socket := socket;
       events := events; outcome := outcome |} in
  match chat ≫= task_id_of with
  | Raise e => leave None [] (Fails e)
  | Ok task_id =>
      if negb (truthy task_id)
      then leave None [] (Fails (SystemExit "Planner did not return a task id"))
      else
        match Client.open_task_stream rt client (py_format rt task_id) gateway None with
        | Raise e => leave None [] (Fails e)
        | Ok ws =>
            let run := Client.for_loop loop_body ws in
            let '(ws', outcome) := close_after_loop run in
            leave (Some ws') (Client.observed run) outcome
        end
  end.

End LiveCompanionMain.

(** ** Events as the type declarations describe them

    types.py declares a stream event as a [dict] with an [event] key naming
    its kind; a status event carries a [status] snapshot whose own [status]
    field is a [str]. *)

Definition event_kind (event : json) : option json :=
  match event with
  | JObj fields => fields !! "event"
  | _ => None
  end.

Definition is_status_event (event : json) : bool :=
  match event_kind event with
  | Some kind => py_eq_str kind "status"
  | None => false
  end.

(** The status value a status event reports. *)
Definition status_of (event : json) : option string :=
  match event with
  | JObj fields =>
      if is_status_event event then
        match fields !! "status" with
        | Some (JObj snapshot) =>
            match snapshot !! "status" with
            | Some (JStr value) => Some value
            | _ => None
            end
        | _ => None
        end
      else None
  | _ => None
  end.

(** [TaskStreamEvent], as far as the consuming loops look: a [dict]; when
    its kind is [status] it has a snapshot, and the snapshot's [status], if
    present, is a [str]. *)
Definition well_typed_event (event : json) : bool :=
  match event with
  | JObj fields =>
      if is_status_event event then
        match fields !! "status" with
        | Some (JObj snapshot) =>
            match snapshot !! "status" with
            | Some (JStr _) | None => true
            | Some _ => false
            end
        | _ => false
        end
      else true
  | _ => false
  end.

(** A frame carrying a status event, and the event it decodes to. *)
Definition status_frame (value : string) : string :=
  "{" ++ q "event" ++ ":" ++ q "status" ++ "," ++ q "status"
      ++ ":{" ++ q "status" ++ ":" ++ q value ++ "}}".

Definition status_event (value : string) : json :=
  JObj (<["event" := JStr "status"]>
          (<["status" := JObj (<["status" := JStr value]> ∅)]> ∅)).

Definition overlay_frame : string :=
  "{" ++ q "event" ++ ":" ++ q "overlay" ++ "," ++ q "overlay" ++ ":{"
      ++ q "source" ++ ":" ++ q "vision" ++ "," ++ q "data" ++ ":{"
      ++ q "title" ++ ":" ++ q "Example" ++ "}}}".

Definition overlay_event : json :=
  JObj (<["event" := JStr "overlay"]>
          (<["overlay" :=
               JObj (<["source" := JStr "vision"]>
                       (<["data" := JObj (<["title" := JStr "Example"]> ∅)]> ∅))]> ∅)).


(** ** A runtime for the scenarios

    One server answer for every request, and a socket that delivers the
    given frames. *)
Definition with_inbox (msgs : list recv_result) (ws : WebSocket) : WebSocket :=
  {| connected_to := connected_to ws; handshake := handshake ws;
     inbox := msgs; closed := closed ws |}.

Definition fresh_socket (frames : list string) : WebSocket :=
  {| connected_to := None; handshake := None;
     inbox := Message <$> frames; closed := false |}.

Definition answering (answer : string) : HttpClient :=
  {| state := UNOPENED; sent := [];
     remote := λ _, Ok {| status_error := None; content := answer |} |}.

Definition scenario_format (v : json) : string :=
  match v with
  | JStr s => s
  | JInt z => pretty z
  | _ => ""
  end.

Definition scenario_runtime (base : URL) (answer : string) (frames : list string) : Runtime :=
  {| httpx_URL := λ _, Ok base;
     httpx_Client := λ _, answering answer;
     websocket_WebSocket := Some (fresh_socket frames);
     py_format := scenario_format |}.

(** [http://127.0.0.1:8801], the default base URL, as [httpx.URL] reads it. *)
Definition local_console : URL :=
  {| scheme := "http"; host := "127.0.0.1"; port := Some 8801%Z |}.

(** A chat response whose plan carries task identifier [task_id]. *)
Definition chat_answer (task_id : string) : string :=
  "{" ++ q "success" ++ ":true," ++ q "plan" ++ ":{" ++ q "plan" ++ ":{"
      ++ q "task_id" ++ ":" ++ q task_id ++ "," ++ q "steps" ++ ":[]}}}".

(** A response that reports no task identifier. *)
Definition rejected_answer : string :=
  "{" ++ q "success" ++ ":false," ++ q "plan" ++ ":{" ++ q "plan" ++ ":{"
      ++ q "steps" ++ ":[]}}}".

(** ** States a gateway client can be in

    The object after its constructor, and after any call of a public
    method. *)
Inductive gateway_reachable : Gateway.SoulBrowserGatewayClient → Prop :=
  | reach_init rt tenant_id base_url http api_key tenant_token headers self :
      Gateway.__init__ rt tenant_id base_url http api_key tenant_token headers = Ok self →
      gateway_reachable self
  | reach_set_tenant tenant_id self :
      gateway_reachable self →
      gateway_reachable (Gateway.set_tenant tenant_id self).1
  | reach_configure_auth api_key tenant_token self :
      gateway_reachable self →
      gateway_reachable (Gateway.configure_auth api_key tenant_token self)
  | reach_run_tool payload tenant_id headers self :
      gateway_reachable self →
      gateway_reachable (Gateway.run_tool payload tenant_id headers self).1
  | reach_run_plan payload tenant_id headers self :
      gateway_reachable self →
      gateway_reachable (Gateway.run_plan payload tenant_id headers self).1
  | reach_close self :
      gateway_reachable self →
      gateway_reachable (Gateway.close self).

(** The request [run_tool] and [run_plan] hand to the HTTP client. *)
Definition gateway_request (url : string) (payload : json)
    (self : Gateway.SoulBrowserGatewayClient) (tenant_id : option string)
    (headers : option (gmap string string)) : Request :=
  {| req_url := url; req_json := payload;
     req_headers := Some (Gateway._build_headers self tenant_id headers) |}.

(** A header dict names [authorization] in some letter case. *)
Definition has_authorization (headers : gmap string string) : Prop :=
  ∃ key, is_Some (headers !! key) ∧ lower key = "authorization".

(** The frames of the two streaming scenarios. *)
Definition three_frames : list string :=
  [status_frame "running"; overlay_frame; status_frame "success"].

Definition frames_with_malformed : list string :=
  [status_frame "running"; "{not json"; status_frame "success"].

Definition scenario_prompt : string := "navigate to example.com".
Definition scenario_base_url : string := "http://127.0.0.1:8801".

(** [http://127.0.0.1:0] as [httpx.URL] reads it: the port is the integer
    zero, not [None]. *)
Definition port_zero_url : string := "http://127.0.0.1:0".

Definition port_zero_base : URL :=
  {| scheme := "http"; host := "127.0.0.1"; port := Some 0%Z |}.

(** The socket scheme and the default port [_build_ws_url] derives. *)
Definition upgraded_scheme (base : URL) : string :=
  if String.eqb (scheme base) "https" then "wss" else "ws".

Definition default_port (base : URL) : Z :=
  if String.eqb (scheme base) "https" then 443%Z else 80%Z.



(** The headers [_build_headers] holds after [headers.update(overrides)]:
    the per-call overrides over the static headers over the two entries of
    the SDK. *)
Definition merged_headers (self : Gateway.SoulBrowserGatewayClient)
    (tenant_id : option string) (overrides : option (gmap string string))
    : gmap string string :=
  default ∅ overrides
    ∪ (Gateway._static_headers self
         ∪ <["x-tenant-id" := str_or tenant_id (Gateway._tenant_id self)]>
             (<["content-type" := "application/json"]> ∅)).

(** What the caller supplied: per-call overrides and static headers. *)
Definition caller_headers (self : Gateway.SoulBrowserGatewayClient)
    (overrides : option (gmap string string)) : gmap string string :=
  default ∅ overrides ∪ Gateway._static_headers self.

(** A client whose static headers carry an empty tenant header. *)
Definition empty_tenant_header : gmap string string := {["x-tenant-id" := ""]}.

(** Gateway clients for the scenarios: one with an api_key, one whose
    static headers name the tenant header. *)
Definition keyed_gateway : Gateway.SoulBrowserGatewayClient :=
  {| Gateway._base_url := scenario_base_url; Gateway._tenant_id := "demo-tenant";
     Gateway._owns_http := true; Gateway._http := answering rejected_answer;
     Gateway._api_key := Some "secret"; Gateway._tenant_token := None;
     Gateway._static_headers := ∅ |}.

Definition basic_auth : gmap string string := {["AUTHORIZATION" := "Basic abc"]}.

Definition untenanted_gateway : Gateway.SoulBrowserGatewayClient :=
  {| Gateway._base_url := scenario_base_url; Gateway._tenant_id := "demo-tenant";
     Gateway._owns_http := true; Gateway._http := answering rejected_answer;
     Gateway._api_key := None; Gateway._tenant_token := None;
     Gateway._static_headers := empty_tenant_header |}.

Definition navigate_payload : json := JObj (<["tool" := JStr "navigate"]> ∅).

(** ** client.py: the REST helpers

    The helpers build a request and hand it to [_get] or [_post].  A GET
    request is the [dict] the helper passes to [_get]: its [url] and, when
    the key is there and not [None], its [params]. *)
Record GetRequest := {
  get_url : string;
  get_params : option (gmap string json);
}.

Module Rest.
Import Client.

(** [self._http.get(...)]: the same lifecycle as a POST; [serve] is the
    remote side's answer to GET requests.  ([sent] keeps listing the POST
    requests only.) *)
Definition http_get (serve : GetRequest → result Response) (req : GetRequest)
    (h : HttpClient) : HttpClient * result Response :=
  match state h with
  | CLOSED => (h, Raise (RuntimeError "Cannot send a request, as the client has been closed."))
  | _ => ({| state := OPENED; sent := sent h; remote := remote h |}, serve req)
  end.

(** client.py, lines 158-161. *)
Definition _get (serve : GetRequest → result Response) (request : GetRequest)
    (self : SoulBrowserClient) : SoulBrowserClient * result json :=
  let '(h, r) := http_get serve request (_http self) in
  (set_http h self,
   resp ← r;
   _ ← raise_for_status resp;
   resp_json resp).

(** [{'limit': limit} if limit is not None else None] *)
Definition limit_params (limit : option Z) : option (gmap string json) :=
  match limit with
  | Some n => Some {["limit" := JInt n]}
  | None => None
  end.

Definition perceive (payload : json) (self : SoulBrowserClient)
    : SoulBrowserClient * result json :=
  _post "/api/perceive" payload self.

Definition create_task (payload : json) (self : SoulBrowserClient)
    : SoulBrowserClient * result json :=
  _post "/api/tasks" payload self.

Definition list_tasks (serve : GetRequest → result Response) (limit : option Z)
    (self : SoulBrowserClient) : SoulBrowserClient * result json :=
  let '(self', data) :=
    _get serve {| get_url := "/api/tasks"; get_params := limit_params limit |} self in
  (self', d ← data; py_get d "tasks" (JArr [])).

Definition get_task (serve : GetRequest → result Response) (task_id : string)
    (limit : option Z) (self : SoulBrowserClient) : SoulBrowserClient * result json :=
  _get serve {| get_url := "/api/tasks/" ++ task_id; get_params := limit_params limit |} self.

Definition get_task_status (serve : GetRequest → result Response) (task_id : string)
    (self : SoulBrowserClient) : SoulBrowserClient * result json :=
  let '(self', data) :=
    _get serve {| get_url := "/api/tasks/" ++ task_id ++ "/status"; get_params := None |} self in
  (self', d ← data; py_getitem d "status").

Definition get_task_logs (serve : GetRequest → result Response) (task_id : string)
    (since : option string) (self : SoulBrowserClient) : SoulBrowserClient * result json :=
  let params :=
    match since with
    | Some s => if negb (String.eqb s "") then Some {["since" := JStr s]} else None
    | None => None
    end in
  let '(self', data) :=
    _get serve {| get_url := "/api/tasks/" ++ task_id ++ "/logs"; get_params := params |} self in
  (self', d ← data; py_getitem d "logs").

Definition get_task_observations (serve : GetRequest → result Response)
    (task_id : string) (limit : option Z) (self : SoulBrowserClient)
    : SoulBrowserClient * result json :=
  _get serve {| get_url := "/api/tasks/" ++ task_id ++ "/observations";
                get_params := limit_params limit |} self.

Definition get_task_artifacts (serve : GetRequest → result Response)
    (task_id : string) (self : SoulBrowserClient) : SoulBrowserClient * result json :=
  _get serve {| get_url := "/api/tasks/" ++ task_id ++ "/artifacts"; get_params := None |} self.

Definition get_task_annotations (serve : GetRequest → result Response)
    (task_id : string) (self : SoulBrowserClient) : SoulBrowserClient * result json :=
  _get serve {| get_url := "/api/tasks/" ++ task_id ++ "/annotations"; get_params := None |} self.

(** client.py, lines 101-109: the request [list_recordings] builds. *)
Definition list_recordings_request (limit : option Z) (state : option string)
    : GetRequest :=
  let params : gmap string json := ∅ in
  let params :=
    match limit with
    | Some n => <["limit" := JInt n]> params
    | None => params
    end in
  let params :=
    match state with
    | Some s => if negb (String.eqb s "") then <["state" := JStr s]> params else params
    | None => params
    end in
  {| get_url := "/api/recordings";
     get_params := if bool_decide (params = ∅) then None else Some params |}.

Definition list_recordings (serve : GetRequest → result Response)
    (limit : option Z) (state : option string) (self : SoulBrowserClient)
    : SoulBrowserClient * result json :=
  _get serve (list_recordings_request limit state) self.

Definition get_recording (serve : GetRequest → result Response)
    (session_id : string) (self : SoulBrowserClient) : SoulBrowserClient * result json :=
  _get serve {| get_url := "/api/recordings/" ++ session_id; get_params := None |} self.

Definition create_task_annotation (task_id : string) (payload : json)
    (self : SoulBrowserClient) : SoulBrowserClient * result json :=
  _post ("/api/tasks/" ++ task_id ++ "/annotations") payload self.

(** [payload or {}] *)
Definition execute_task (task_id : string) (payload : option json)
    (self : SoulBrowserClient) : SoulBrowserClient * result json :=
  _post ("/api/tasks/" ++ task_id ++ "/execute")
    (match payload with
     | Some p => if truthy p then p else JObj ∅
     | None => JObj ∅
     end) self.

Definition cancel_task (task_id : string) (reason : option string)
    (self : SoulBrowserClient) : SoulBrowserClient * result json :=
  _post ("/api/tasks/" ++ task_id ++ "/cancel")
    (JObj {["reason" := match reason with Some r => JStr r | None => JNull end]}) self.

(** The context manager: [__enter__] returns the client, [__exit__] closes
    it. *)
Definition __enter__ (self : SoulBrowserClient) : SoulBrowserClient := self.
Definition __exit__ (self : SoulBrowserClient) : SoulBrowserClient := close self.

End Rest.

(** ** gateway_plan_demo.py *)
Module GatewayPlanDemo.

(** [s.replace(old, new, 1)]: the leftmost occurrence of [old]. *)
Fixpoint replace_first (old new s : string) : string :=
  match Json.strip_prefix old s with
  | Some rest => new ++ rest
  | None =>
      match s with
      | EmptyString => EmptyString
      | String c rest => String c (replace_first old new rest)
      end
  end.

(** [s.startswith(lit)] *)
Definition startswith (s lit : string) : bool :=
  match Json.strip_prefix lit s with
  | Some _ => true
  | None => false
  end.

(** gateway_plan_demo.py, lines 55-61. *)
Definition to_ws_url (base_url stream_path : string) : string :=
  let gateway_url := rstrip_slash base_url in
  if startswith stream_path "http" then stream_path
  else if startswith gateway_url "https"
  then replace_first "https" "wss" gateway_url ++ stream_path
  else replace_first "http" "ws" gateway_url ++ stream_path.

End GatewayPlanDemo.

(** ** observations.py *)
Module Observations.

(** [list(v)].  Iterating a [dict] gives its keys and iterating a [str]
    its characters, all of them [str] values; [resolve_task_id] fails on
    the first of them whatever their order. *)
Definition py_list (v : json) : result (list json) :=
  match v with
  | JArr items => Ok items
  | JObj fields => Ok (JStr <$> (map_to_list fields).*1)
  | JStr s => Ok ((λ c, JStr (String c "")) <$> list_ascii_of_string s)
  | _ => Raise TypeError
  end.

(** observations.py, lines 18-21: the [for] loop; [None] when no task is
    running.  The comparison with [running] follows [lower]; no letter
    outside ASCII folds to a letter of that word. *)
Fixpoint first_running (tasks : list json) : result (option json) :=
  match tasks with
  | [] => Ok None
  | task :: rest =>
      last_status ← py_get task "last_status" JNull;
      match (if truthy last_status then last_status else JStr "") with
      | JStr status =>
          if String.eqb (lower status) "running"
          then Some <$> py_getitem task "task_id"
          else first_running rest
      | _ => Raise AttributeError
      end
  end.

(** observations.py, lines 12-22; [argv] is [sys.argv]. *)
Definition resolve_task_id (argv : list string)
    (serve : GetRequest → result Response) (client : Client.SoulBrowserClient)
    : Client.SoulBrowserClient * result json :=
  match argv with
  | _ :: task_id :: _ => (client, Ok (JStr task_id))
  | _ =>
      let '(client', listed) := Rest.list_tasks serve (Some 5%Z) client in
      (client',
       listed ← listed;
       tasks ← py_list listed;
       match tasks with
       | [] => Raise (RuntimeError "No tasks available; pass a task id as the first argument.")
       | first :: _ =>
           found ← first_running tasks;
           match found with
           | Some task_id => Ok task_id
           | None => py_getitem first "task_id"
           end
       end)
  end.

End Observations.

(** A status event that reports the end of its task, in the sense of the
    example loops. *)
Definition reports_success_or_failed (doc : json) : Prop :=
  ∃ value, status_of doc = Some value ∧ (value = "success" ∨ value = "failed").

(** ** Listed tasks, as observations.py reads them

    A task summary is a [dict] with a [task_id]; its [last_status], when
    present, is a [str] or [None]. *)
Definition listed_task (task : json) : Prop :=
  ∃ fields, task = JObj fields
    ∧ is_Some (fields !! "task_id")
    ∧ match fields !! "last_status" with
      | Some (JStr _) | Some JNull | None => True
      | Some _ => False
      end.

(** The task's [last_status] is [running] in some letter case. *)
Definition is_running (task : json) : bool :=
  match task with
  | JObj fields =>
      match fields !! "last_status" with
      | Some (JStr status) => String.eqb (lower status) "running"
      | _ => false
      end
  | _ => false
  end.

Definition task_id_field (task : json) : option json :=
  match task with
  | JObj fields => fields !! "task_id"
  | _ => None
  end.

(** The first element of a list that passes a test. *)
Fixpoint find_first {A} (test : A → bool) (l : list A) : option A :=
  match l with
  | [] => None
  | x :: rest => if test x then Some x else find_first test rest
  end.

(** [n] trailing slashes. *)
Fixpoint slashes (n : nat) : string :=
  match n with
  | O => ""
  | S n' => String "/" (slashes n')
  end.

Definition two_tasks : list json :=
  [JObj (<["task_id" := JStr "t-1"]> (<["last_status" := JStr "success"]> ∅));
   JObj (<["task_id" := JStr "t-2"]> (<["last_status" := JStr "Running"]> ∅))].

(** The answer of [/api/tasks] that lists [two_tasks]. *)
Definition two_tasks_answer : string :=
  "{" ++ q "tasks" ++ ":[{" ++ q "task_id" ++ ":" ++ q "t-1" ++ ","
      ++ q "last_status" ++ ":" ++ q "success" ++ "},{" ++ q "task_id" ++ ":" ++ q "t-2"
      ++ "," ++ q "last_status" ++ ":" ++ q "Running" ++ "}]}".

Definition two_tasks_response : Response :=
  {| status_error := None; content := two_tasks_answer |}.

Definition observations_client : Client.SoulBrowserClient :=
  Client.__init__ (scenario_runtime local_console two_tasks_answer [])
    scenario_base_url None None.

(** * Properties *)

(** ** Floats that round to zero *)

(** Below the bound [float_nonzero] tests, the comparison it skips gives
    [false]. *)
Lemma tiny_float_shortcut (m k : Z) :
  (0 < m)%Z → (Z.log2 m + 325 ≤ k)%Z → (10 ^ k <? m * 2 ^ 1075)%Z = false.
Proof.
  intros Hm Hk. apply Z.ltb_ge.
  pose proof (Z.log2_nonneg m) as Hlog.
  destruct (Z.log2_spec m Hm) as [_ Hupper].
  assert (2 ^ 1075 ≤ 10 ^ 324)%Z as Hhalf by (vm_compute; discriminate).
  assert (2 ^ Z.succ (Z.log2 m) ≤ 10 ^ Z.succ (Z.log2 m))%Z as Hpow.
  { apply Z.pow_le_mono_l. lia. }
  transitivity (10 ^ Z.succ (Z.log2 m) * 10 ^ 324)%Z.
  - apply Z.mul_le_mono_nonneg; [lia|lia| |exact Hhalf].
    apply Z.pow_nonneg. lia.
  - rewrite <- Z.pow_add_r by lia. apply Z.pow_le_mono_r; lia.
Qed.

(** ** The decoder always answers

    Every scanning function leaves strictly less text than it was given,
    so the fuel [loads] supplies is never used up: when [loads] raises
    [RecursionError], the nesting of the text is the reason. *)
Module JsonFacts.
Import Json.

Lemma skip_ws_length (s : string) : (String.length (skip_ws s) ≤ String.length s)%nat.
Proof. induction s as [|c s IH]; simpl; [lia|]. destruct (is_ws c); simpl; lia. Qed.

Lemma span_digits_length (s : string) :
  (String.length (span_digits s).2 ≤ String.length s)%nat.
Proof.
  induction s as [|c s IH]; simpl; [lia|].
  destruct (is_digit c); simpl; [|lia].
  destruct (span_digits s) as [ds tl]. simpl in *. lia.
Qed.

Lemma match_frac_length (s : string) :
  (String.length (match_frac s).2 ≤ String.length s)%nat.
Proof.
  unfold match_frac. destruct s as [|c s]; simpl; [lia|].
  repeat case_match; simpl; try lia.
  all: match goal with
       | H : span_digits ?t = _ |- _ =>
           pose proof (span_digits_length t) as Hs; rewrite H in Hs
       end; simpl in *; lia.
Qed.

Lemma match_exp_length (s : string) :
  (String.length (match_exp s).2 ≤ String.length s)%nat.
Proof.
  unfold match_exp. destruct s as [|e s]; simpl; [lia|].
  destruct (Ascii.eqb e "e" || Ascii.eqb e "E"); simpl; [|lia].
  repeat case_match; simplify_eq; simpl; try lia.
  all: match goal with
       | H : span_digits ?t = _ |- _ =>
           pose proof (span_digits_length t) as Hs; rewrite H in Hs
       end; simpl in *; lia.
Qed.

Lemma match_integer_length (s : string) neg ds rest :
  match_integer s = Some (neg, ds, rest) → (String.length rest < String.length s)%nat.
Proof.
  unfold match_integer. intros H.
  repeat case_match; simplify_eq; simpl; try lia.
  all: match goal with
       | H : span_digits ?t = _ |- _ =>
           pose proof (span_digits_length t) as Hs; rewrite H in Hs
       end; simpl in *; lia.
Qed.

Lemma match_number_length (s : string) v rest :
  match_number s = Some (v, rest) → (String.length rest < String.length s)%nat.
Proof.
  unfold match_number. intros H.
  destruct (match_integer s) as [[[neg ds] s1]|] eqn:Hi; [|done].
  apply match_integer_length in Hi.
  pose proof (match_frac_length s1) as Hf.
  destruct (match_frac s1) as [frac s2].
  pose proof (match_exp_length s2) as He.
  destruct (match_exp s2) as [exp s3]. simpl in *.
  repeat case_match; simplify_eq; lia.
Qed.

Lemma strip_prefix_length (lit s rest : string) :
  strip_prefix lit s = Some rest →
  String.length s = String.length lit + String.length rest.
Proof.
  revert s. induction lit as [|a lit IH]; intros s H; simpl in *.
  - by simplify_eq.
  - destruct s as [|b s]; [done|]. destruct (Ascii.eqb a b); [|done].
    apply IH in H. simpl. lia.
Qed.

Lemma scanstring_length (s : string) st high str rest :
  scanstring st high s = Some (str, rest) → (String.length rest < String.length s)%nat.
Proof.
  revert st high str. induction s as [|c s IH]; intros st high str H; simpl in H; [done|].
  assert (∀ st' high' out str',
    emit out (scanstring st' high' s) = Some (str', rest) →
    (String.length rest < String.length (String c s))%nat) as Hemit.
  { intros st' high' out str' He. unfold emit in He.
    destruct (scanstring st' high' s) as [[str0 rest0]|] eqn:Hs; [|done].
    simplify_eq. apply IH in Hs. simpl. lia. }
  destruct st as [| |more acc].
  - repeat case_match; simplify_eq; simpl; eauto.
    match goal with H : scanstring _ _ _ = Some _ |- _ => apply IH in H; simpl; lia end.
  - repeat case_match; simplify_eq; simpl; eauto.
    match goal with H : scanstring _ _ _ = Some _ |- _ => apply IH in H; simpl; lia end.
  - repeat case_match; simplify_eq; simpl; eauto.
    all: match goal with H : scanstring _ _ _ = Some _ |- _ => apply IH in H; simpl; lia end.
Qed.

Lemma scan_constant_length (s : string) v rest :
  scan_constant s = Parsed v rest → (String.length rest < String.length s)%nat.
Proof.
  unfold scan_constant. intros H.
  repeat case_match; simplify_eq.
  all: match goal with H : strip_prefix _ _ = Some _ |- _ =>
         apply strip_prefix_length in H; simpl in H; lia end.
Qed.

Lemma scan_atom_length (s : string) v rest :
  scan_atom s = Parsed v rest → (String.length rest < String.length s)%nat.
Proof.
  unfold scan_atom. intros H.
  repeat case_match; simplify_eq;
    try match goal with H : strip_prefix _ _ = Some _ |- _ =>
         apply strip_prefix_length in H; simpl in H; lia end.
  - by eapply match_number_length.
  - by eapply scan_constant_length.
Qed.

Lemma scan_atom_fuel (s : string) : scan_atom s ≠ OutOfFuel.
Proof. unfold scan_atom, scan_constant. by repeat case_match. Qed.

(** What a scanning function returns is a strict suffix. *)
Lemma scan_progress (fuel : nat) :
  (∀ depth s v rest, scan_once depth fuel s = Parsed v rest →
     (String.length rest < String.length s)%nat)
  ∧ (∀ depth s seen v rest, array_items depth fuel s seen = Parsed v rest →
     (String.length rest < String.length s)%nat)
  ∧ (∀ depth s seen v rest, object_items depth fuel s seen = Parsed v rest →
     (String.length rest < String.length s)%nat).
Proof.
  induction fuel as [|fuel (IHv & IHa & IHo)]; [by repeat split|].
  repeat split.
  - intros depth s v rest H. simpl in H.
    destruct s as [|c s]; [done|].
    destruct (Ascii.eqb c dquote).
    { destruct (scanstring Plain None s) as [[str r]|] eqn:Hs; [|done].
      simplify_eq. apply scanstring_length in Hs. simpl. lia. }
    destruct (Ascii.eqb c "{").
    { destruct depth as [|depth]; [done|].
      pose proof (skip_ws_length s) as Hw.
      destruct (skip_ws s) as [|c' s']; [done|]. simpl in Hw.
      destruct (Ascii.eqb c' "}"); [simplify_eq; simpl; lia|].
      destruct (Ascii.eqb c' dquote); [|done].
      apply IHo in H. simpl. lia. }
    destruct (Ascii.eqb c "[").
    { destruct depth as [|depth]; [done|].
      pose proof (skip_ws_length s) as Hw.
      assert (array_items depth fuel (skip_ws s) [] = Parsed v rest
              ∨ ∃ r, skip_ws s = String "]" r ∧ rest = r) as [Ha|(r & Hr & ->)].
      { repeat case_match; simplify_eq; eauto. }
      - apply IHa in Ha. simpl. lia.
      - rewrite Hr in Hw. simpl in *. lia. }
    by apply scan_atom_length in H.
  - intros depth s seen v rest H. simpl in H.
    destruct (scan_once depth fuel s) as [v0 r0| |e0|] eqn:Hv; try done.
    apply IHv in Hv. pose proof (skip_ws_length r0) as Hw.
    destruct (skip_ws r0) as [|c r1]; [done|]. simpl in Hw.
    destruct (Ascii.eqb c "]"); [simplify_eq; lia|].
    destruct (Ascii.eqb c ","); [|done].
    apply IHa in H. pose proof (skip_ws_length r1). lia.
  - intros depth s seen v rest H. simpl in H.
    destruct (scanstring Plain None s) as [[key r0]|] eqn:Hk; [|done].
    apply scanstring_length in Hk. pose proof (skip_ws_length r0) as Hw0.
    assert (∃ r1, skip_ws r0 = String ":" r1) as [r1 Hr1].
    { repeat case_match; simplify_eq; eauto. }
    rewrite Hr1 in H, Hw0. simpl in Hw0.
    destruct (scan_once depth fuel (skip_ws r1)) as [v0 r2| |e0|] eqn:Hv; try done.
    apply IHv in Hv. pose proof (skip_ws_length r1) as Hw1.
    pose proof (skip_ws_length r2) as Hw2.
    destruct (skip_ws r2) as [|c r3]; [done|]. simpl in Hw2.
    destruct (Ascii.eqb c "}"); [simplify_eq; lia|].
    destruct (Ascii.eqb c ","); [|done].
    pose proof (skip_ws_length r3) as Hw3.
    destruct (skip_ws r3) as [|c' r4]; [done|]. simpl in Hw3.
    destruct (Ascii.eqb c' dquote); [|done].
    apply IHo in H. lia.
Qed.

(** With more fuel than twice the length of the text, no scan runs out
    of it. *)
Lemma scan_fuel (fuel : nat) :
  (∀ depth s, (2 * String.length s < fuel)%nat →
       scan_once depth fuel s ≠ OutOfFuel)
  ∧ (∀ depth s seen, (2 * String.length s + 1 < fuel)%nat →
       array_items depth fuel s seen ≠ OutOfFuel)
  ∧ (∀ depth s seen, (2 * String.length s + 1 < fuel)%nat →
       object_items depth fuel s seen ≠ OutOfFuel).
Proof.
  induction fuel as [|fuel (IHv & IHa & IHo)]; [repeat split; intros; lia|].
  destruct (scan_progress fuel) as (Pv & Pa & Po).
  repeat split.
  - intros depth s Hf. simpl.
    destruct s as [|c s]; [done|]. simpl in Hf.
    destruct (Ascii.eqb c dquote); [by repeat case_match|].
    destruct (Ascii.eqb c "{").
    { destruct depth as [|depth]; [done|].
      pose proof (skip_ws_length s) as Hw.
      destruct (skip_ws s) as [|c' s']; [done|]. simpl in Hw.
      destruct (Ascii.eqb c' "}"); [done|].
      destruct (Ascii.eqb c' dquote); [|done].
      apply IHo. lia. }
    destruct (Ascii.eqb c "[").
    { destruct depth as [|depth]; [done|].
      pose proof (skip_ws_length s) as Hw.
      assert (2 * String.length (skip_ws s) + 1 < fuel)%nat as Hlt by lia.
      pose proof (IHa depth (skip_ws s) [] Hlt).
      repeat case_match; simplify_eq; done. }
    apply scan_atom_fuel.
  - intros depth s seen Hf. simpl.
    assert (2 * String.length s < fuel)%nat as Hlt by lia.
    pose proof (IHv depth s Hlt) as Hv.
    destruct (scan_once depth fuel s) as [v0 r0| |e0|] eqn:Hs; try done.
    apply Pv in Hs. pose proof (skip_ws_length r0) as Hw.
    destruct (skip_ws r0) as [|c r1]; [done|]. simpl in Hw.
    destruct (Ascii.eqb c "]"); [done|].
    destruct (Ascii.eqb c ","); [|done].
    apply IHa. pose proof (skip_ws_length r1). lia.
  - intros depth s seen Hf. simpl.
    destruct (scanstring Plain None s) as [[key r0]|] eqn:Hk; [|done].
    apply scanstring_length in Hk. pose proof (skip_ws_length r0) as Hw0.
    destruct (skip_ws r0) as [|c0 r1] eqn:Hr0; [done|]. simpl in Hw0.
    assert (2 * String.length (skip_ws r1) < fuel)%nat as Hlt.
    { pose proof (skip_ws_length r1). lia. }
    pose proof (IHv depth _ Hlt) as Hv.
    assert (∀ v0 r2, scan_once depth fuel (skip_ws r1) = Parsed v0 r2 →
      match skip_ws r2 with
      | String c rest3 =>
          if Ascii.eqb c "}" then Parsed (JObj (<[key := v0]> seen)) rest3
          else if Ascii.eqb c "," then
            match skip_ws rest3 with
            | String c' rest4 =>
                if Ascii.eqb c' dquote
                then object_items depth fuel rest4 (<[key := v0]> seen)
                else Malformed
            | EmptyString => Malformed
            end
          else Malformed
      | EmptyString => Malformed
      end ≠ OutOfFuel) as Hitem.
    { intros v0 r2 Hs.
      apply Pv in Hs. pose proof (skip_ws_length r1) as Hw1.
      pose proof (skip_ws_length r2) as Hw2.
      destruct (skip_ws r2) as [|c r3]; [done|]. simpl in Hw2.
      destruct (Ascii.eqb c "}"); [done|].
      destruct (Ascii.eqb c ","); [|done].
      pose proof (skip_ws_length r3) as Hw3.
      destruct (skip_ws r3) as [|c' r4]; [done|]. simpl in Hw3.
      destruct (Ascii.eqb c' dquote); [|done].
      apply IHo. lia. }
    destruct (scan_once depth fuel (skip_ws r1)) as [v0 r2| |e0|] eqn:Hs;
      [specialize (Hitem v0 r2 eq_refl)| | |done];
      by repeat case_match.
Qed.

Lemma scan_once_fuel (depth : nat) (s : string) :
  scan_once depth (fuel_for s) (skip_ws s) ≠ OutOfFuel.
Proof.
  apply scan_fuel. unfold fuel_for. pose proof (skip_ws_length s). lia.
Qed.

(** A scan refuses a text only at the recursion guard or at the
    conversion of an integer. *)
Lemma scan_refusals (fuel : nat) :
  (∀ depth s e, scan_once depth fuel s = Refused e →
     e = RecursionError ∨ ∃ msg, e = ValueError msg)
  ∧ (∀ depth s seen e, array_items depth fuel s seen = Refused e →
     e = RecursionError ∨ ∃ msg, e = ValueError msg)
  ∧ (∀ depth s seen e, object_items depth fuel s seen = Refused e →
     e = RecursionError ∨ ∃ msg, e = ValueError msg).
Proof.
  induction fuel as [|fuel (IHv & IHa & IHo)]; [by repeat split|].
  repeat split.
  - intros depth s e H. simpl in H.
    destruct s as [|c s]; [done|].
    destruct (Ascii.eqb c dquote); [by repeat case_match|].
    destruct (Ascii.eqb c "{").
    { destruct depth as [|depth]; [simplify_eq; by left|].
      repeat case_match; simplify_eq; eauto. }
    destruct (Ascii.eqb c "[").
    { destruct depth as [|depth]; [simplify_eq; by left|].
      repeat case_match; simplify_eq; eauto. }
    unfold scan_atom, scan_constant, match_number, parse_int in H.
    repeat case_match; simplify_eq; eauto.
  - intros depth s seen e H. simpl in H.
    destruct (scan_once depth fuel s) as [v0 r0| |e0|] eqn:Hv;
      [|done|simplify_eq; eauto|done].
    repeat case_match; simplify_eq; eauto.
  - intros depth s seen e H. simpl in H.
    destruct (scanstring Plain None s) as [[key r0]|]; [|done].
    destruct (skip_ws r0) as [|c0 r1]; [done|].
    destruct (scan_once depth fuel (skip_ws r1)) as [v0 r2| |e0|] eqn:Hv;
      [| |assert (e0 = e) as -> by (repeat case_match; simplify_eq; done); eauto|];
      repeat case_match; simplify_eq; eauto.
Qed.

(** [json.loads] returns a document or raises one of three exceptions. *)
Lemma loads_outcomes (s : string) :
  (∃ doc, loads s = Ok doc)
  ∨ loads s = Raise JSONDecodeError
  ∨ loads s = Raise RecursionError
  ∨ ∃ msg, loads s = Raise (ValueError msg).
Proof.
  unfold loads. pose proof (scan_once_fuel nesting_limit s) as Hfuel.
  destruct (scan_once nesting_limit (fuel_for s) (skip_ws s))
    as [v rest| |e|] eqn:Hscan; [|by eauto| |done].
  - destruct (skip_ws rest); eauto.
  - apply (proj1 (scan_refusals _)) in Hscan as [->|[msg ->]]; eauto.
Qed.

End JsonFacts.

(** ** Terminal-state detection *)

Lemma in_success_failed (s : string) :
  existsb (String.eqb s) ["success"; "failed"] = true ↔ s = "success" ∨ s = "failed".
Proof.
  simpl. rewrite !orb_true_iff, !String.eqb_eq. intuition discriminate.
Qed.

Lemma live_is_terminal_true (event : json) :
  LiveCompanion.is_terminal event = Ok true ↔
  ∃ value, status_of event = Some value ∧ (value = "success" ∨ value = "failed").
Proof.
  unfold LiveCompanion.is_terminal, status_of, is_status_event, event_kind.
  destruct event as [| | | | |items|fields]; simpl;
    try (split; [discriminate | intros (v & [=] & _)]).
  destruct (fields !! "event") as [kind|]; simpl;
    [|split; [discriminate | intros (v & [=] & _)]].
  destruct (py_eq_str kind "status"); simpl;
    [|split; [discriminate | intros (v & [=] & _)]].
  destruct (fields !! "status") as [[| | | | | |snapshot]|]; simpl;
    try (split; [discriminate | intros (v & [=] & _)]).
  destruct (snapshot !! "status") as [[| | | |value| |]|]; simpl;
    try (split; [discriminate | intros (v & [=] & _)]).
  split.
  - intros [= H]. exists value. split; [done|]. by apply in_success_failed.
  - intros (v & [= ->] & Hv). f_equal. by apply in_success_failed.
Qed.

Lemma chat_plan_is_terminal_true (event : json) :
  ChatPlan.is_terminal event = Ok true ↔
  ∃ value, status_of event = Some value ∧ (value = "success" ∨ value = "failed").
Proof.
  unfold ChatPlan.is_terminal, status_of, is_status_event, event_kind.
  destruct event as [| | | | |items|fields]; simpl;
    try (split; [discriminate | intros (v & [=] & _)]).
  destruct (fields !! "event") as [kind|]; simpl;
    [|split; [discriminate | intros (v & [=] & _)]].
  destruct (py_eq_str kind "status"); simpl;
    [|split; [discriminate | intros (v & [=] & _)]].
  destruct (fields !! "status") as [[| | | | | |snapshot]|]; simpl;
    try (split; [discriminate | intros (v & [=] & _)]).
  destruct (snapshot !! "status") as [[| | | |value| |]|]; simpl;
    try (split; [discriminate | intros (v & [=] & _)]).
  split.
  - intros [= H]. exists value. split; [done|]. by apply in_success_failed.
  - intros (v & [= ->] & Hv). f_equal. by apply in_success_failed.
Qed.

Lemma well_typed_detectors_agree (event : json) :
  well_typed_event event = true →
  ∃ b, LiveCompanion.is_terminal event = Ok b ∧ ChatPlan.is_terminal event = Ok b.
Proof.
  unfold well_typed_event, LiveCompanion.is_terminal, ChatPlan.is_terminal,
    is_status_event, event_kind.
  destruct event as [| | | | |items|fields]; simpl; try discriminate.
  destruct (fields !! "event") as [kind|]; simpl; [|by exists false].
  destruct (py_eq_str kind "status"); simpl; [|by exists false].
  destruct (fields !! "status") as [[| | | | | |snapshot]|]; simpl; try discriminate.
  destruct (snapshot !! "status") as [[| | | |value| |]|]; simpl; try discriminate;
    eauto.
Qed.

(** C1, as the code has it: on every decoded event each of the two
    detectors (live_companion.py and chat_plan.py) answers true exactly when
    the event is a status event whose status value is [success] or
    [failed]; on an event shaped as types.py declares both return, with the
    same answer, which is therefore false for every other status value
    ([running], [queued], [cancelled]) and for every other kind. *)
Theorem terminal_iff_success_or_failed (event : json) :
  (LiveCompanion.is_terminal event = Ok true ↔
     ∃ value, status_of event = Some value ∧ (value = "success" ∨ value = "failed"))
  ∧ (ChatPlan.is_terminal event = Ok true ↔
     ∃ value, status_of event = Some value ∧ (value = "success" ∨ value = "failed"))
  ∧ (well_typed_event event = true →
     ∃ b, LiveCompanion.is_terminal event = Ok b ∧ ChatPlan.is_terminal event = Ok b
          ∧ (b = false ↔
             ¬ ∃ value, status_of event = Some value
                        ∧ (value = "success" ∨ value = "failed"))).
Proof.
  split; [apply live_is_terminal_true|].
  split; [apply chat_plan_is_terminal_true|].
  intros Hty. destruct (well_typed_detectors_agree event Hty) as (b & Hl & Hc).
  exists b. split; [done|]. split; [done|].
  rewrite <- live_is_terminal_true, Hl. destruct b; split; naive_solver.
Qed.

Lemma terminal_iff_success_or_failed_witness :
  well_typed_event (status_event "cancelled") = true
  ∧ ∃ b, LiveCompanion.is_terminal (status_event "cancelled") = Ok b
         ∧ ChatPlan.is_terminal (status_event "cancelled") = Ok b
         ∧ (b = false ↔
            ¬ ∃ value, status_of (status_event "cancelled") = Some value
                       ∧ (value = "success" ∨ value = "failed")).
Proof.
  split; [reflexivity|].
  apply (terminal_iff_success_or_failed (status_event "cancelled")).
  reflexivity.
Defined.

(** The claim as the document words it makes [cancelled] terminal; the
    frame decodes to a status event whose value is [cancelled], and neither
    detector fires on it. *)
Lemma cancelled_is_not_detected :
  Json.loads (status_frame "cancelled") = Ok (status_event "cancelled")
  ∧ status_of (status_event "cancelled") = Some "cancelled"
  ∧ LiveCompanion.is_terminal (status_event "cancelled") = Ok false
  ∧ ChatPlan.is_terminal (status_event "cancelled") = Ok false.
Proof. repeat split; vm_compute; reflexivity. Qed.

(** ** The iterator *)

Lemma next_message (ws : WebSocket) (frame : string) (rest : list recv_result) :
  inbox ws = Message frame :: rest →
  Client.iter_task_stream Client.Suspended ws =
    match Json.loads frame with
    | Ok event => (Client.Yield event, Client.Suspended, with_inbox rest ws)
    | Raise e => (Client.Raised e, Client.Finished, with_inbox rest ws)
    end.
Proof.
  intros Hin. unfold Client.iter_task_stream, ws_recv. rewrite Hin.
  by destruct (Json.loads frame).
Qed.

Lemma next_finished (ws : WebSocket) :
  Client.iter_task_stream Client.Finished ws = (Client.StopIteration, Client.Finished, ws).
Proof. reflexivity. Qed.

Lemma with_inbox_same (ws : WebSocket) : with_inbox (inbox ws) ws = ws.
Proof. by destruct ws. Qed.

Lemma nexts_decodable (frames : list string) (docs : list json)
    (ws : WebSocket) (rest : list recv_result) :
  inbox ws = ((Message <$> frames) ++ rest)%list →
  Forall2 (λ frame doc, Json.loads frame = Ok doc) frames docs →
  Client.nexts (length frames) Client.Suspended ws =
    (Client.Yield <$> docs, Client.Suspended, with_inbox rest ws).
Proof.
  intros Hin Hdec. revert ws Hin.
  induction Hdec as [|frame doc frames docs Hd _ IH]; intros ws Hin.
  - simpl in *. by rewrite <- Hin, with_inbox_same.
  - change (Client.nexts (length (frame :: frames)) Client.Suspended ws)
      with (let '(p, gen', ws') := Client.iter_task_stream Client.Suspended ws in
            let '(ps, gen'', ws'') := Client.nexts (length frames) gen' ws' in
            (p :: ps, gen'', ws'')).
    rewrite fmap_cons, <- app_comm_cons in Hin.
    rewrite (next_message ws frame _ Hin), Hd. cbv beta iota zeta.
    by rewrite (IH (with_inbox _ ws) eq_refl).
Qed.

(** The fuel of [for_loop] is never used up. *)
Lemma for_loop_fuel_enough (body : json → result bool) (fuel : nat)
    (gen : Client.generator) (ws : WebSocket) (seen : list json) :
  (length (inbox ws) ≤ fuel)%nat →
  Client.ending (Client.for_loop_fuel fuel body gen ws seen) ≠ Client.NoFuel.
Proof.
  revert gen ws seen. induction fuel as [|fuel IH]; intros gen ws seen Hlen.
  - destruct ws as [url hs [|m msgs] cl]; simpl in Hlen; [|lia].
    by destruct gen.
  - simpl. destruct gen; [|done].
    unfold Client.iter_task_stream, ws_recv.
    destruct ws as [url hs [|m msgs] cl]; simpl in *; [done|].
    destruct m as [text| |e]; try done.
    destruct (Json.loads text) as [event|e]; [|done].
    destruct (body event) as [[|]|e]; try done.
    apply IH. simpl. lia.
Qed.

Lemma for_loop_ends (body : json → result bool) (ws : WebSocket) :
  Client.ending (Client.for_loop body ws) ≠ Client.NoFuel.
Proof. by apply for_loop_fuel_enough. Qed.

(** ** Decoding one frame *)




(** ** A malformed frame *)

Lemma for_loop_fuel_unfold (fuel : nat) (body : json → result bool)
    (gen : Client.generator) (ws : WebSocket) (seen : list json) :
  Client.for_loop_fuel fuel body gen ws seen =
    match Client.iter_task_stream gen ws with
    | (Client.Yield event, gen', ws') =>
        match body event with
        | Raise e =>
            {| Client.observed := seen ++ [event]; Client.ending := Client.Propagates e;
               Client.gen_after := gen'; Client.ws_after := ws' |}
        | Ok true =>
            {| Client.observed := seen ++ [event]; Client.ending := Client.Break;
               Client.gen_after := gen'; Client.ws_after := ws' |}
        | Ok false =>
            match fuel with
            | O => {| Client.observed := seen ++ [event]; Client.ending := Client.NoFuel;
                      Client.gen_after := gen'; Client.ws_after := ws' |}
            | S fuel' => Client.for_loop_fuel fuel' body gen' ws' (seen ++ [event])
            end
        end
    | (Client.StopIteration, gen', ws') =>
        {| Client.observed := seen; Client.ending := Client.Exhausted;
           Client.gen_after := gen'; Client.ws_after := ws' |}
    | (Client.Raised e, gen', ws') =>
        {| Client.observed := seen; Client.ending := Client.Propagates e;
           Client.gen_after := gen'; Client.ws_after := ws' |}
    | (Client.Blocks, gen', ws') =>
        {| Client.observed := seen; Client.ending := Client.Blocked;
           Client.gen_after := gen'; Client.ws_after := ws' |}
    end.
Proof. by destruct fuel. Qed.

Lemma with_inbox_twice (a b : list recv_result) (ws : WebSocket) :
  with_inbox a (with_inbox b ws) = with_inbox a ws.
Proof. reflexivity. Qed.

(** C2, as the code has it: with a frame on which the decoder raises
    between two valid frames (the frame [{not json] of the document makes it
    raise [JSONDecodeError]) the caller receives the first event; the pull
    for the second frame raises the decoder's exception and finishes the
    generator, so the next pull reports the end of the iteration and the
    second valid frame is never delivered.  The iterator leaves the socket
    as it was: it does not close it. *)
Theorem malformed_frame_ends_iteration (ws : WebSocket) (first bad second : string)
    (event : json) (e : exn) (rest : list recv_result) (body : json → result bool) :
  inbox ws = Message first :: Message bad :: Message second :: rest →
  Json.loads first = Ok event →
  Json.loads bad = Raise e →
  body event = Ok false →
  Client.nexts 3 Client.Suspended ws =
    ([Client.Yield event; Client.Raised e; Client.StopIteration],
     Client.Finished, with_inbox (Message second :: rest) ws)
  ∧ closed (with_inbox (Message second :: rest) ws) = closed ws
  ∧ Client.for_loop body ws =
      {| Client.observed := [event];
         Client.ending := Client.Propagates e;
         Client.gen_after := Client.Finished;
         Client.ws_after := with_inbox (Message second :: rest) ws |}.
Proof.
  intros Hin Hfirst Herr Hbody.
  pose proof (next_message ws first _ Hin) as H1. rewrite Hfirst in H1.
  pose proof (next_message (with_inbox (Message bad :: Message second :: rest) ws)
                bad _ eq_refl) as H2.
  rewrite Herr, with_inbox_twice in H2.
  split; [|split].
  - change (Client.nexts 3 Client.Suspended ws)
      with (let '(p, gen', ws') := Client.iter_task_stream Client.Suspended ws in
            let '(ps, gen'', ws'') := Client.nexts 2 gen' ws' in
            (p :: ps, gen'', ws'')).
    rewrite H1. cbv beta iota zeta.
    change (Client.nexts 2 Client.Suspended ?w)
      with (let '(p, gen', ws') := Client.iter_task_stream Client.Suspended w in
            let '(ps, gen'', ws'') := Client.nexts 1 gen' ws' in
            (p :: ps, gen'', ws'')).
    by rewrite H2.
  - reflexivity.
  - unfold Client.for_loop. rewrite Hin. simpl length.
    rewrite for_loop_fuel_unfold, H1, Hbody.
    by rewrite for_loop_fuel_unfold, H2.
Qed.

Lemma malformed_frame_ends_iteration_witness :
  Client.nexts 3 Client.Suspended (fresh_socket frames_with_malformed) =
    ([Client.Yield (status_event "running"); Client.Raised JSONDecodeError;
      Client.StopIteration],
     Client.Finished,
     with_inbox [Message (status_frame "success")] (fresh_socket frames_with_malformed)).
Proof.
  apply (malformed_frame_ends_iteration (fresh_socket frames_with_malformed)
           (status_frame "running") "{not json" (status_frame "success")
           (status_event "running") JSONDecodeError [] ChatPlanMain.loop_body).
  - reflexivity.
  - vm_compute. reflexivity.
  - vm_compute. reflexivity.
  - vm_compute. reflexivity.
Defined.

(** The scenario of the document: the consumer receives one event, not
    three, and the pull for the malformed frame raises. *)
Lemma malformed_frame_stops_consumer :
  Client.for_loop ChatPlanMain.loop_body (fresh_socket frames_with_malformed) =
    {| Client.observed := [status_event "running"];
       Client.ending := Client.Propagates JSONDecodeError;
       Client.gen_after := Client.Finished;
       Client.ws_after := fresh_socket [status_frame "success"] |}
  ∧ (Client.nexts 2 Client.Suspended (fresh_socket frames_with_malformed)).1.1 =
      [Client.Yield (status_event "running"); Client.Raised JSONDecodeError].
Proof. split; vm_compute; reflexivity. Qed.

(** ** Order of delivery *)

(** C5, as the code has it: the frames received before the first malformed
    one are delivered one decoded event per frame, in the order emitted;
    when every frame is well-formed that is the whole sequence.  In the
    three-frame scenario the example program opens the stream of task
    [t-1], its loop receives exactly the three events in order, leaves on
    the third, the only one on which detection fires, and closes the
    socket. *)
Theorem decodable_frames_delivered_in_order :
  (∀ (frames : list string) (docs : list json) (ws : WebSocket)
     (rest : list recv_result),
     inbox ws = ((Message <$> frames) ++ rest)%list →
     Forall2 (λ frame doc, Json.loads frame = Ok doc) frames docs →
     Client.nexts (length frames) Client.Suspended ws =
       (Client.Yield <$> docs, Client.Suspended, with_inbox rest ws))
  ∧ (let run :=
       ChatPlanMain.main
         (scenario_runtime local_console (chat_answer "t-1") three_frames)
         scenario_base_url scenario_prompt in
     events run = [status_event "running"; overlay_event; status_event "success"]
     ∧ outcome run = Returns
     ∧ socket run =
         Some {| connected_to := Some "ws://127.0.0.1:8801/api/tasks/t-1/stream";
                 handshake := None; inbox := []; closed := true |}
     ∧ ChatPlanMain.loop_body <$> events run = [Ok false; Ok false; Ok true]
     ∧ LiveCompanionMain.loop_body <$> events run = [Ok false; Ok false; Ok true]).
Proof.
  split; [apply nexts_decodable|].
  vm_compute. repeat split; reflexivity.
Qed.

Lemma decodable_frames_delivered_in_order_witness :
  Client.nexts 3 Client.Suspended (fresh_socket three_frames) =
    (Client.Yield <$> [status_event "running"; overlay_event; status_event "success"],
     Client.Suspended, with_inbox [] (fresh_socket three_frames)).
Proof.
  apply (proj1 decodable_frames_delivered_in_order three_frames
           [status_event "running"; overlay_event; status_event "success"]
           (fresh_socket three_frames) []).
  - reflexivity.
  - repeat constructor; vm_compute; reflexivity.
Defined.

(** Two frames are emitted and no event is delivered: the first is
    malformed. *)
Lemma malformed_first_frame_delivers_nothing :
  Client.nexts 2 Client.Suspended (fresh_socket ["{not json"; status_frame "success"]) =
    ([Client.Raised JSONDecodeError; Client.StopIteration], Client.Finished,
     fresh_socket [status_frame "success"])
  ∧ Client.observed
      (Client.for_loop ChatPlanMain.loop_body
         (fresh_socket ["{not json"; status_frame "success"])) = [].
Proof. split; vm_compute; reflexivity. Qed.

(** ** The socket URL *)

Lemma build_ws_url_keeps_port (rt : Runtime) (self : Client.SoulBrowserClient)
    (path : string) (base : URL) :
  httpx_URL rt (Client._base_url self) = Ok base →
  port base ≠ Some 0%Z →
  Client._build_ws_url rt self path =
    Ok (upgraded_scheme base ++ "://" ++ host base ++ ":"
          ++ pretty (default (default_port base) (port base)) ++ path).
Proof.
  intros Hbase Hport. unfold Client._build_ws_url, upgraded_scheme, default_port.
  rewrite Hbase. simpl. do 6 f_equal.
  destruct (port base) as [p|]; simpl.
  - destruct (Z.eqb_spec p 0) as [->|]; [done|reflexivity].
  - by destruct (String.eqb (scheme base) "https").
Qed.

Lemma open_task_stream_connects (rt : Runtime) (self : Client.SoulBrowserClient)
    (task_id : string) (via_gateway : bool) (path : string) (cls : WebSocket)
    (base : URL) :
  Client._websocket_class self = Some cls →
  handshake cls = None →
  path ≠ "" →
  httpx_URL rt (Client._base_url self) = Ok base →
  port base ≠ Some 0%Z →
  connected_to <$> Client.open_task_stream rt self task_id via_gateway (Some path) =
    Ok (Some (upgraded_scheme base ++ "://" ++ host base ++ ":"
                ++ pretty (default (default_port base) (port base)) ++ path)).
Proof.
  intros Hcls Hhs Hpath Hbase Hport. unfold Client.open_task_stream.
  rewrite Hcls. simpl.
  destruct (String.eqb_spec path "") as [|_]; [done|].
  rewrite (build_ws_url_keeps_port rt self path base Hbase Hport). simpl.
  unfold ws_connect. by rewrite Hhs.
Qed.

(** C6 at a base URL whose port is zero: [base.port or ...] takes the zero
    for a missing port, and the socket URL names port 80 where the base URL
    names port 0. *)
Theorem ws_url_replaces_port_zero :
  let rt := scenario_runtime port_zero_base (chat_answer "t-1") three_frames in
  let client := Client.__init__ rt port_zero_url None None in
  httpx_URL rt (Client._base_url client) = Ok port_zero_base
  ∧ Client._build_ws_url rt client "/api/tasks/t-1/stream" =
      Ok "ws://127.0.0.1:80/api/tasks/t-1/stream"
  ∧ connected_to <$> Client.open_task_stream rt client "t-1" false None =
      Ok (Some "ws://127.0.0.1:80/api/tasks/t-1/stream").
Proof. repeat split; vm_compute; reflexivity. Qed.

(** ** Submission *)






(** ** Closing *)

(** C8: closing a client, a gateway client or a socket a second time
    leaves it as the first close left it; [close] is a total function of
    the object, so there is nothing for it to raise. *)
Theorem close_is_idempotent :
  (∀ self : Client.SoulBrowserClient,
     Client.close (Client.close self) = Client.close self)
  ∧ (∀ self : Gateway.SoulBrowserGatewayClient,
     Gateway.close (Gateway.close self) = Gateway.close self)
  ∧ (∀ ws : WebSocket, ws_close (ws_close ws) = ws_close ws).
Proof.
  split; [|split].
  - intros self. unfold Client.close.
    destruct (Client._owns_http self) eqn:Howns; simpl; by rewrite ?Howns.
  - intros self. unfold Gateway.close.
    destruct (Gateway._owns_http self) eqn:Howns; simpl; by rewrite ?Howns.
  - reflexivity.
Qed.

(** ** Gateway headers *)

Lemma update_if_nonempty (o headers : gmap string string) :
  (if bool_decide (o = ∅) then headers else o ∪ headers) = o ∪ headers.
Proof. case_bool_decide as Ho; [|done]. subst o. by rewrite (left_id_L ∅ (∪)). Qed.

Lemma build_headers_unfold (self : Gateway.SoulBrowserGatewayClient)
    (tenant_id : option string) (overrides : option (gmap string string)) :
  Gateway._build_headers self tenant_id overrides =
    let headers := merged_headers self tenant_id overrides in
    let lowered : gset string := set_map lower (dom headers) in
    let headers :=
      match Gateway._api_key self with
      | Some key =>
          if negb (String.eqb key "") && bool_decide ("authorization" ∉ lowered)
          then <["Authorization" := "Bearer " ++ key]> headers
          else headers
      | None => headers
      end in
    match Gateway._tenant_token self with
    | Some token =>
        if negb (String.eqb token "") && bool_decide (headers !! "x-tenant-token" = None)
        then <["x-tenant-token" := token]> headers
        else headers
    | None => headers
    end.
Proof.
  unfold Gateway._build_headers, merged_headers.
  destruct overrides as [o|]; cbv zeta; simpl default.
  - by rewrite update_if_nonempty.
  - by rewrite (left_id_L ∅ (∪)).
Qed.

Lemma in_lowered (headers : gmap string string) :
  "authorization" ∈ (set_map lower (dom headers) : gset string) ↔ has_authorization headers.
Proof.
  rewrite elem_of_map. unfold has_authorization. split.
  - intros (key & Hlow & Hdom). exists key. by rewrite <- elem_of_dom.
  - intros (key & Hsome & Hlow). exists key. by rewrite elem_of_dom.
Qed.

Lemma lower_authorization_not_sdk_key (key : string) :
  lower key = "authorization" →
  key ≠ "x-tenant-id" ∧ key ≠ "content-type" ∧ key ≠ "x-tenant-token".
Proof. intros H. repeat split; intros ->; vm_compute in H; discriminate. Qed.

Lemma merged_lookup_authorization (self : Gateway.SoulBrowserGatewayClient)
    (tenant_id : option string) (overrides : option (gmap string string))
    (key : string) :
  lower key = "authorization" →
  merged_headers self tenant_id overrides !! key = caller_headers self overrides !! key.
Proof.
  intros Hlow. destruct (lower_authorization_not_sdk_key key Hlow) as (H1 & H2 & _).
  unfold merged_headers, caller_headers.
  rewrite !lookup_union, lookup_insert_ne, lookup_insert_ne, lookup_empty by done.
  by rewrite (right_id_L None union).
Qed.

Lemma merged_has_authorization (self : Gateway.SoulBrowserGatewayClient)
    (tenant_id : option string) (overrides : option (gmap string string)) :
  has_authorization (merged_headers self tenant_id overrides)
  ↔ has_authorization (caller_headers self overrides).
Proof.
  unfold has_authorization. split; intros (key & Hsome & Hlow); exists key.
  - by rewrite <- (merged_lookup_authorization self tenant_id).
  - by rewrite (merged_lookup_authorization self tenant_id).
Qed.

Lemma build_headers_lookup_other (self : Gateway.SoulBrowserGatewayClient)
    (tenant_id : option string) (overrides : option (gmap string string))
    (key : string) :
  key ≠ "Authorization" → key ≠ "x-tenant-token" →
  Gateway._build_headers self tenant_id overrides !! key =
    merged_headers self tenant_id overrides !! key.
Proof.
  intros Hauth Htoken. rewrite build_headers_unfold. cbv zeta.
  repeat case_match; by rewrite ?lookup_insert_ne by done.
Qed.

Lemma build_headers_keeps_merged (self : Gateway.SoulBrowserGatewayClient)
    (tenant_id : option string) (overrides : option (gmap string string))
    (key value : string) :
  merged_headers self tenant_id overrides !! key = Some value →
  Gateway._build_headers self tenant_id overrides !! key = Some value.
Proof.
  intros Hkey. rewrite build_headers_unfold. cbv zeta.
  assert (lower "Authorization" = "authorization") as Hlow by reflexivity.
  assert (∀ headers : gmap string string,
    headers !! key = Some value →
    match Gateway._tenant_token self with
    | Some token =>
        if negb (String.eqb token "") && bool_decide (headers !! "x-tenant-token" = None)
        then <["x-tenant-token" := token]> headers
        else headers
    | None => headers
    end !! key = Some value) as Htoken.
  { intros headers Hh. destruct (Gateway._tenant_token self) as [token|]; [|done].
    destruct (negb (String.eqb token "")); simpl; [|done].
    case_bool_decide as Hnone; [|done].
    rewrite lookup_insert_ne; [done|]. intros <-. congruence. }
  apply Htoken.
  destruct (Gateway._api_key self) as [k|]; [|done].
  destruct (negb (String.eqb k "")); simpl; [|done].
  case_bool_decide as Hnot; [|done].
  rewrite lookup_insert_ne; [done|]. intros <-.
  apply Hnot, in_lowered. exists "Authorization". by rewrite Hkey.
Qed.

(** C10: when the static headers or the per-call overrides name
    [authorization] in any letter case, every such key keeps the value the
    caller gave it and nothing is added under such a key; when they do not
    and a non-empty api_key is stored, the headers carry [Authorization] set
    to [Bearer] and the key; and an entry of the per-call overrides is in
    the built headers with its own value, whatever the static headers
    say. *)
Theorem authorization_header_precedence (self : Gateway.SoulBrowserGatewayClient)
    (tenant_id : option string) (overrides : option (gmap string string)) :
  (has_authorization (caller_headers self overrides) →
     ∀ key, lower key = "authorization" →
       Gateway._build_headers self tenant_id overrides !! key =
         caller_headers self overrides !! key)
  ∧ (¬ has_authorization (caller_headers self overrides) →
     ∀ api_key, Gateway._api_key self = Some api_key → api_key ≠ "" →
       Gateway._build_headers self tenant_id overrides !! "Authorization" =
         Some ("Bearer " ++ api_key))
  ∧ (∀ o key value, overrides = Some o → o !! key = Some value →
       Gateway._build_headers self tenant_id overrides !! key = Some value).
Proof.
  split; [|split].
  - intros Hhas key Hlow.
    destruct (lower_authorization_not_sdk_key key Hlow) as (_ & _ & Htok).
    rewrite <- (merged_lookup_authorization self tenant_id overrides key Hlow).
    rewrite build_headers_unfold. cbv zeta.
    apply (merged_has_authorization self tenant_id), in_lowered in Hhas.
    assert (∀ headers : gmap string string,
      match Gateway._tenant_token self with
      | Some token =>
          if negb (String.eqb token "") && bool_decide (headers !! "x-tenant-token" = None)
          then <["x-tenant-token" := token]> headers
          else headers
      | None => headers
      end !! key = headers !! key) as Htoken.
    { intros headers. repeat case_match; by rewrite ?lookup_insert_ne by done. }
    rewrite Htoken.
    destruct (Gateway._api_key self) as [k|]; [|done].
    rewrite (bool_decide_eq_false_2 _) by (intros Hnot; by apply Hnot).
    by rewrite andb_false_r.
  - intros Hnone api_key Hkey Hne.
    rewrite build_headers_unfold. cbv zeta. rewrite Hkey.
    destruct (String.eqb_spec api_key "") as [|_]; [done|]. simpl.
    assert ("authorization" ∉
              (set_map lower (dom (merged_headers self tenant_id overrides)) : gset string))
      as Hnot.
    { intros Hin. apply Hnone.
      by apply (merged_has_authorization self tenant_id), in_lowered. }
    rewrite (bool_decide_eq_true_2 _ Hnot).
    repeat case_match; rewrite ?lookup_insert_ne by done; by rewrite lookup_insert_eq.
  - intros o key value -> Hkey. apply build_headers_keeps_merged.
    unfold merged_headers. simpl. by apply lookup_union_Some_l.
Qed.

Lemma authorization_header_precedence_witness :
  has_authorization (caller_headers keyed_gateway (Some basic_auth))
  ∧ Gateway._build_headers keyed_gateway None (Some basic_auth) !! "AUTHORIZATION" =
      Some "Basic abc"
  ∧ Gateway._build_headers keyed_gateway None (Some basic_auth) !! "Authorization" = None
  ∧ ¬ has_authorization (caller_headers keyed_gateway None)
  ∧ Gateway._build_headers keyed_gateway None None !! "Authorization" =
      Some "Bearer secret".
Proof.
  pose proof (authorization_header_precedence keyed_gateway None (Some basic_auth))
    as (Hkeep & _ & Hover).
  pose proof (authorization_header_precedence keyed_gateway None None)
    as (_ & Hadd & _).
  assert (has_authorization (caller_headers keyed_gateway (Some basic_auth))) as Hhas.
  { exists "AUTHORIZATION". split; [|reflexivity]. vm_compute. eauto. }
  assert (¬ has_authorization (caller_headers keyed_gateway None)) as Hnone.
  { intros (key & Hsome & _). vm_compute in Hsome. by destruct Hsome. }
  split; [exact Hhas|]. split; [|split; [|split; [exact Hnone|]]].
  - apply (Hover basic_auth); [reflexivity|]. vm_compute. reflexivity.
  - rewrite (Hkeep Hhas "Authorization" eq_refl). vm_compute. reflexivity.
  - apply (Hadd Hnone "secret"); [reflexivity|discriminate].
Defined.

(** ** The tenant identifier *)

Lemma init_checks_tenant (rt : Runtime) (tenant_id base_url : string)
    (http : option HttpClient) (api_key tenant_token : option string)
    (headers : option (gmap string string)) :
  match Gateway.__init__ rt tenant_id base_url http api_key tenant_token headers with
  | Ok self => tenant_id ≠ "" ∧ Gateway._tenant_id self = tenant_id
  | Raise e => tenant_id = "" ∧ e = ValueError "tenant_id is required"
  end.
Proof.
  unfold Gateway.__init__. by destruct (String.eqb_spec tenant_id "").
Qed.

Lemma set_tenant_checks (tenant_id : string) (self : Gateway.SoulBrowserGatewayClient) :
  (tenant_id = "" →
     Gateway.set_tenant tenant_id self =
       (self, Raise (ValueError "tenant_id must not be empty")))
  ∧ (tenant_id ≠ "" →
     Gateway._tenant_id (Gateway.set_tenant tenant_id self).1 = tenant_id
     ∧ (Gateway.set_tenant tenant_id self).2 = Ok ()).
Proof.
  unfold Gateway.set_tenant. by destruct (String.eqb_spec tenant_id "").
Qed.

Lemma run_tool_keeps_tenant payload tenant_id headers self :
  Gateway._tenant_id (Gateway.run_tool payload tenant_id headers self).1 =
    Gateway._tenant_id self.
Proof.
  unfold Gateway.run_tool, Gateway.post_json, http_post.
  repeat case_match; simplify_eq; done.
Qed.

Lemma run_plan_keeps_tenant payload tenant_id headers self :
  Gateway._tenant_id (Gateway.run_plan payload tenant_id headers self).1 =
    Gateway._tenant_id self.
Proof.
  unfold Gateway.run_plan, Gateway.post_json, http_post.
  repeat case_match; simplify_eq; done.
Qed.

Lemma reachable_tenant_nonempty (self : Gateway.SoulBrowserGatewayClient) :
  gateway_reachable self → Gateway._tenant_id self ≠ "".
Proof.
  induction 1 as [rt t b h a k hs self Hinit|t self _ IH|a k self _ IH
                  |p t hs self _ IH|p t hs self _ IH|self _ IH].
  - pose proof (init_checks_tenant rt t b h a k hs) as Hc. rewrite Hinit in Hc.
    destruct Hc as [Hne ->]. exact Hne.
  - unfold Gateway.set_tenant. by destruct (String.eqb_spec t "").
  - exact IH.
  - by rewrite run_tool_keeps_tenant.
  - by rewrite run_plan_keeps_tenant.
  - unfold Gateway.close. by destruct (Gateway._owns_http self).
Qed.

Lemma run_tool_sends (self : Gateway.SoulBrowserGatewayClient) (payload tool : json)
    (tenant_id : option string) (headers : option (gmap string string)) :
  py_get payload "tool" JNull = Ok tool → truthy tool = true →
  state (Gateway._http self) ≠ CLOSED →
  sent (Gateway._http (Gateway.run_tool payload tenant_id headers self).1) =
    (sent (Gateway._http self)
       ++ [gateway_request "/v1/tools/run" payload self tenant_id headers])%list.
Proof.
  intros Htool Htruthy Hstate. unfold Gateway.run_tool. rewrite Htool, Htruthy. simpl.
  unfold Gateway.post_json, http_post. by destruct (state (Gateway._http self)).
Qed.

Lemma run_plan_sends (self : Gateway.SoulBrowserGatewayClient) (payload plan : json)
    (tenant_id : option string) (headers : option (gmap string string)) :
  py_get payload "plan" JNull = Ok plan → truthy plan = true →
  state (Gateway._http self) ≠ CLOSED →
  sent (Gateway._http (Gateway.run_plan payload tenant_id headers self).1) =
    (sent (Gateway._http self)
       ++ [gateway_request "/v1/tasks/run" payload self tenant_id headers])%list.
Proof.
  intros Hplan Htruthy Hstate. unfold Gateway.run_plan. rewrite Hplan, Htruthy. simpl.
  unfold Gateway.post_json, http_post. by destruct (state (Gateway._http self)).
Qed.

Lemma str_or_nonempty (x : option string) (y : string) : y ≠ "" → str_or x y ≠ "".
Proof.
  intros Hy. unfold str_or. destruct x as [s|]; [|done].
  by destruct (String.eqb_spec s "").
Qed.

(** C9, as the code has it: the constructor raises [ValueError] exactly
    when [tenant_id] is empty and stores it otherwise; [set_tenant] with an
    empty [tenant_id] raises [ValueError] and leaves the object as it was;
    so the stored tenant of a client is never empty.  [run_tool] and
    [run_plan] send the headers of [_build_headers], which always carry
    [x-tenant-id]; its value is the per-call [tenant_id] when that is given
    and not empty, otherwise the stored tenant, hence not empty, provided
    that neither the static headers nor the per-call header overrides have an
    [x-tenant-id] entry of their own. *)
Theorem tenant_header_invariant :
  (∀ rt tenant_id base_url http api_key tenant_token headers,
     match Gateway.__init__ rt tenant_id base_url http api_key tenant_token headers with
     | Ok self => tenant_id ≠ "" ∧ Gateway._tenant_id self = tenant_id
     | Raise e => tenant_id = "" ∧ e = ValueError "tenant_id is required"
     end)
  ∧ (∀ self, Gateway.set_tenant "" self =
               (self, Raise (ValueError "tenant_id must not be empty")))
  ∧ (∀ self, gateway_reachable self → Gateway._tenant_id self ≠ "")
  ∧ (∀ self payload tool tenant_id headers,
       py_get payload "tool" JNull = Ok tool → truthy tool = true →
       state (Gateway._http self) ≠ CLOSED →
       sent (Gateway._http (Gateway.run_tool payload tenant_id headers self).1) =
         (sent (Gateway._http self)
            ++ [gateway_request "/v1/tools/run" payload self tenant_id headers])%list)
  ∧ (∀ self payload plan tenant_id headers,
       py_get payload "plan" JNull = Ok plan → truthy plan = true →
       state (Gateway._http self) ≠ CLOSED →
       sent (Gateway._http (Gateway.run_plan payload tenant_id headers self).1) =
         (sent (Gateway._http self)
            ++ [gateway_request "/v1/tasks/run" payload self tenant_id headers])%list)
  ∧ (∀ self tenant_id overrides,
       is_Some (Gateway._build_headers self tenant_id overrides !! "x-tenant-id"))
  ∧ (∀ self tenant_id overrides,
       gateway_reachable self →
       caller_headers self overrides !! "x-tenant-id" = None →
       Gateway._build_headers self tenant_id overrides !! "x-tenant-id" =
         Some (str_or tenant_id (Gateway._tenant_id self))
       ∧ str_or tenant_id (Gateway._tenant_id self) ≠ "").
Proof.
  split; [apply init_checks_tenant|].
  split; [intros self; by apply set_tenant_checks|].
  split; [apply reachable_tenant_nonempty|].
  split; [apply run_tool_sends|].
  split; [apply run_plan_sends|].
  split.
  - intros self tenant_id overrides.
    rewrite build_headers_lookup_other by done.
    unfold merged_headers. rewrite !lookup_union, lookup_insert_eq.
    destruct (default ∅ overrides !! "x-tenant-id"),
      (Gateway._static_headers self !! "x-tenant-id"); simpl; eauto.
  - intros self tenant_id overrides Hreach Hcaller.
    split; [|by apply str_or_nonempty, reachable_tenant_nonempty].
    rewrite build_headers_lookup_other by done.
    unfold merged_headers, caller_headers in *.
    rewrite lookup_union in Hcaller.
    rewrite !lookup_union, lookup_insert_eq.
    destruct (default ∅ overrides !! "x-tenant-id"),
      (Gateway._static_headers self !! "x-tenant-id"); simpl in *; done.
Qed.

Lemma tenant_header_invariant_witness :
  gateway_reachable keyed_gateway
  ∧ caller_headers keyed_gateway (Some basic_auth) !! "x-tenant-id" = None
  ∧ Gateway._build_headers keyed_gateway (Some "other-tenant") (Some basic_auth)
      !! "x-tenant-id" = Some "other-tenant".
Proof.
  assert (gateway_reachable keyed_gateway) as Hreach.
  { apply (reach_init (scenario_runtime local_console rejected_answer [])
             "demo-tenant" scenario_base_url None (Some "secret") None None).
    reflexivity. }
  split; [exact Hreach|]. split; [vm_compute; reflexivity|].
  apply (proj2 (proj2 (proj2 (proj2 (proj2 (proj2 tenant_header_invariant)))))
           keyed_gateway (Some "other-tenant") (Some basic_auth) Hreach).
  vm_compute. reflexivity.
Defined.

(** A client built with tenant [demo-tenant] and the static header
    [x-tenant-id] set to the empty string: the request [run_tool] sends
    carries an empty [x-tenant-id]. *)
Lemma static_header_empties_tenant :
  Gateway.__init__ (scenario_runtime local_console rejected_answer [])
    "demo-tenant" scenario_base_url None None None (Some empty_tenant_header)
    = Ok untenanted_gateway
  ∧ gateway_reachable untenanted_gateway
  ∧ Gateway._build_headers untenanted_gateway None None !! "x-tenant-id" = Some ""
  ∧ (req_headers <$>
       sent (Gateway._http (Gateway.run_tool navigate_payload None None untenanted_gateway).1))
    = [Some (<["content-type" := "application/json"]> empty_tenant_header)].
Proof.
  assert (Gateway.__init__ (scenario_runtime local_console rejected_answer [])
            "demo-tenant" scenario_base_url None None None (Some empty_tenant_header)
          = Ok untenanted_gateway) as Hinit by reflexivity.
  split; [exact Hinit|]. split; [by eapply reach_init|].
  split; vm_compute; reflexivity.
Qed.

(** * Further properties of the code *)

(** ** The iterator after its end *)

Lemma nexts_finished (n : nat) (ws : WebSocket) :
  Client.nexts n Client.Finished ws =
    (replicate n Client.StopIteration, Client.Finished, ws).
Proof.
  induction n as [|n IH]; [done|].
  change (Client.nexts (S n) Client.Finished ws)
    with (let '(p, gen', ws') := Client.iter_task_stream Client.Finished ws in
          let '(ps, gen'', ws'') := Client.nexts n gen' ws' in
          (p :: ps, gen'', ws'')).
  simpl Client.iter_task_stream. cbv beta iota zeta. by rewrite IH.
Qed.

(** X1: once a pull has reported the end of the stream or raised (a [None]
    message, an error of [recv], a malformed frame), every later pull
    reports [StopIteration] and takes nothing from the socket. *)
Theorem ended_iteration_stays_ended (gen gen' : Client.generator)
    (ws ws' : WebSocket) (p : Client.pull) (n : nat) :
  Client.iter_task_stream gen ws = (p, gen', ws') →
  p = Client.StopIteration ∨ (∃ e, p = Client.Raised e) →
  Client.nexts n gen' ws' = (replicate n Client.StopIteration, Client.Finished, ws').
Proof.
  intros Hstep Hp.
  assert (gen' = Client.Finished) as ->; [|apply nexts_finished].
  unfold Client.iter_task_stream in Hstep.
  destruct gen; [|by simplify_eq].
  destruct (ws_recv ws) as [[[text| |e] ws0]|]; simplify_eq.
  - destruct (Json.loads text); simplify_eq; [|done].
    destruct Hp as [|[e ?]]; done.
  - done.
  - done.
  - destruct Hp as [|[e ?]]; done.
Qed.

Lemma ended_iteration_stays_ended_witness :
  Client.nexts 2 Client.Finished (fresh_socket [status_frame "success"]) =
    ([Client.StopIteration; Client.StopIteration], Client.Finished,
     fresh_socket [status_frame "success"]).
Proof.
  apply (ended_iteration_stays_ended Client.Suspended Client.Finished
           {| connected_to := None; handshake := None;
              inbox := [NoMessage; Message (status_frame "success")];
              closed := false |}
           (fresh_socket [status_frame "success"]) Client.StopIteration 2).
  - reflexivity.
  - by left.
Defined.

(** X2: a text frame that is empty or holds only whitespace does not end
    the stream the way a [None] message does: the pull raises
    [JSONDecodeError] and the generator is finished. *)
Theorem blank_frame_raises (ws : WebSocket) (frame : string) (rest : list recv_result) :
  inbox ws = Message frame :: rest →
  Json.skip_ws frame = "" →
  Client.iter_task_stream Client.Suspended ws =
    (Client.Raised JSONDecodeError, Client.Finished, with_inbox rest ws).
Proof.
  intros Hin Hblank. rewrite (next_message ws frame rest Hin).
  unfold Json.loads, Json.fuel_for. rewrite Hblank. reflexivity.
Qed.

Lemma blank_frame_raises_witness :
  Client.iter_task_stream Client.Suspended (fresh_socket ["  "; status_frame "success"]) =
    (Client.Raised JSONDecodeError, Client.Finished,
     with_inbox [Message (status_frame "success")]
       (fresh_socket ["  "; status_frame "success"])).
Proof.
  apply (blank_frame_raises (fresh_socket ["  "; status_frame "success"]) "  "
           [Message (status_frame "success")]); reflexivity.
Defined.

(** ** The consuming loop *)

Lemma for_loop_fuel_spec (body : json → result bool) (msgs : list recv_result) :
  ∀ (fuel : nat) (ws : WebSocket) (seen : list json),
    inbox ws = msgs → (length msgs ≤ fuel)%nat →
    let run := Client.for_loop_fuel fuel body Client.Suspended ws seen in
    ∃ (frames : list string) (docs : list json) (rest : list recv_result)
      (init : list json),
      msgs = ((Message <$> frames) ++ rest)%list
      ∧ Client.observed run = (seen ++ docs)%list
      ∧ Forall2 (λ frame doc, Json.loads frame = Ok doc) frames docs
      ∧ Forall (λ doc, body doc = Ok false) init
      ∧ match Client.ending run with
        | Client.Break =>
            ∃ doc, docs = (init ++ [doc])%list ∧ body doc = Ok true
                   ∧ Client.ws_after run = with_inbox rest ws
        | Client.Exhausted =>
            docs = init
            ∧ ∃ rest', rest = NoMessage :: rest'
                       ∧ Client.ws_after run = with_inbox rest' ws
        | Client.Blocked =>
            docs = init ∧ rest = [] ∧ Client.ws_after run = with_inbox [] ws
        | Client.Propagates e =>
            (∃ doc, docs = (init ++ [doc])%list ∧ body doc = Raise e
                    ∧ Client.ws_after run = with_inbox rest ws)
            ∨ (docs = init
               ∧ ∃ rest', (rest = RecvRaises e :: rest'
                           ∨ ∃ bad, rest = Message bad :: rest'
                                    ∧ Json.loads bad = Raise e)
                          ∧ Client.ws_after run = with_inbox rest' ws)
        | Client.NoFuel => False
        end.
Proof.
  induction msgs as [|m msgs IH]; intros fuel ws seen Hin Hfuel run; subst run.
  - rewrite for_loop_fuel_unfold. unfold Client.iter_task_stream, ws_recv.
    rewrite Hin. simpl.
    exists [], [], [], []. rewrite !List.app_nil_r.
    repeat split; try done. destruct ws; simpl in *; by subst.
  - destruct fuel as [|fuel]; [simpl in Hfuel; lia|].
    rewrite for_loop_fuel_unfold.
    destruct m as [text| |e].
    + rewrite (next_message ws text msgs Hin).
      destruct (Json.loads text) as [doc|e] eqn:Hdoc.
      * destruct (body doc) as [[|]|e] eqn:Hbody.
        -- exists [text], [doc], msgs, []. simpl. repeat split; try done.
           ++ by repeat constructor.
           ++ by exists doc.
        -- destruct (IH fuel (with_inbox msgs ws) (seen ++ [doc])%list eq_refl)
             as (frames & docs & rest & init & -> & Hobs & Hdec & Hinit & Hend).
           { simpl in Hfuel. lia. }
           exists (text :: frames), (doc :: docs), rest, (doc :: init).
           rewrite Hobs, <- app_assoc. simpl.
           repeat split; try done; [by constructor|by constructor|].
           destruct (Client.ending _); try done.
           ++ destruct Hend as (d & -> & Hd & Hws). by exists d.
           ++ destruct Hend as (-> & Hrest). done.
           ++ destruct Hend as [(d & -> & Hd & Hws)|(-> & Hrest)].
              ** left. by exists d.
              ** by right.
           ++ destruct Hend as (-> & -> & Hws). done.
        -- exists [text], [doc], msgs, []. simpl. repeat split; try done.
           ++ by repeat constructor.
           ++ left. by exists doc.
      * exists [], [], (Message text :: msgs), []. simpl. rewrite !List.app_nil_r.
        repeat split; try done. right. split; [done|].
        exists msgs. split; [|done]. right. by exists text.
    + unfold Client.iter_task_stream, ws_recv. rewrite Hin. simpl.
      exists [], [], (NoMessage :: msgs), []. rewrite !List.app_nil_r.
      repeat split; try done. by exists msgs.
    + unfold Client.iter_task_stream, ws_recv. rewrite Hin. simpl.
      exists [], [], (RecvRaises e :: msgs), []. rewrite !List.app_nil_r.
      repeat split; try done. right. split; [done|].
      exists msgs. split; [by left|done].
Qed.

Lemma for_loop_spec (body : json → result bool) (ws : WebSocket) :
  let run := Client.for_loop body ws in
  ∃ (frames : list string) (rest : list recv_result) (init : list json),
    inbox ws = ((Message <$> frames) ++ rest)%list
    ∧ Forall2 (λ frame doc, Json.loads frame = Ok doc) frames (Client.observed run)
    ∧ Forall (λ doc, body doc = Ok false) init
    ∧ match Client.ending run with
      | Client.Break =>
          ∃ doc, Client.observed run = (init ++ [doc])%list ∧ body doc = Ok true
                 ∧ Client.ws_after run = with_inbox rest ws
      | Client.Exhausted =>
          Client.observed run = init
          ∧ ∃ rest', rest = NoMessage :: rest'
                     ∧ Client.ws_after run = with_inbox rest' ws
      | Client.Blocked =>
          Client.observed run = init ∧ rest = []
          ∧ Client.ws_after run = with_inbox [] ws
      | Client.Propagates e =>
          (∃ doc, Client.observed run = (init ++ [doc])%list ∧ body doc = Raise e
                  ∧ Client.ws_after run = with_inbox rest ws)
          ∨ (Client.observed run = init
             ∧ ∃ rest', (rest = RecvRaises e :: rest'
                         ∨ ∃ bad, rest = Message bad :: rest'
                                  ∧ Json.loads bad = Raise e)
                        ∧ Client.ws_after run = with_inbox rest' ws)
      | Client.NoFuel => False
      end.
Proof.
  intros run.
  destruct (for_loop_fuel_spec body (inbox ws) (length (inbox ws)) ws [] eq_refl)
    as (frames & docs & rest & init & Hin & Hobs & Hdec & Hinit & Hend); [lia|].
  simpl in Hobs. fold (Client.for_loop body ws) in Hobs, Hend. fold run in Hobs, Hend.
  exists frames, rest, init. rewrite Hobs. done.
Qed.

Lemma for_loop_early_events (body : json → result bool) (ws : WebSocket) :
  ∀ (i : nat) (doc : json),
    Client.observed (Client.for_loop body ws) !! i = Some doc →
    (S i < length (Client.observed (Client.for_loop body ws)))%nat →
    body doc = Ok false.
Proof.
  destruct (for_loop_spec body ws) as (frames & rest & init & Hin & Hdec & Hinit & Hend).
  assert (∀ i doc, init !! i = Some doc → body doc = Ok false) as Hlook.
  { intros i doc Hi.
    exact (Forall_lookup_1 (λ d, body d = Ok false) init i doc Hinit Hi). }
  intros i doc Hi Hlt.
  destruct (Client.ending _).
  - destruct Hend as (d & Hobs & _). rewrite Hobs in Hi, Hlt.
    rewrite length_app in Hlt. simpl in Hlt.
    rewrite lookup_app_l in Hi by lia. by eapply Hlook.
  - destruct Hend as (Hobs & _). rewrite Hobs in Hi. by eapply Hlook.
  - destruct Hend as [(d & Hobs & _)|(Hobs & _)]; rewrite Hobs in Hi.
    + rewrite Hobs, length_app in Hlt. simpl in Hlt.
      rewrite lookup_app_l in Hi by lia. by eapply Hlook.
    + by eapply Hlook.
  - destruct Hend as (Hobs & _). rewrite Hobs in Hi. by eapply Hlook.
  - done.
Qed.

(** X3: whatever the loop body does, the events it is given are the
    decodings of an initial segment of the frames the socket delivers, one
    per frame and in their order, and the body answered "continue" on every
    one of them but the last. *)
Theorem loop_observes_decoded_prefix (body : json → result bool) (ws : WebSocket) :
  ∃ (frames : list string) (rest : list recv_result),
    inbox ws = ((Message <$> frames) ++ rest)%list
    ∧ Forall2 (λ frame doc, Json.loads frame = Ok doc) frames
        (Client.observed (Client.for_loop body ws))
    ∧ ∀ (i : nat) (doc : json),
        Client.observed (Client.for_loop body ws) !! i = Some doc →
        (S i < length (Client.observed (Client.for_loop body ws)))%nat →
        body doc = Ok false.
Proof.
  destruct (for_loop_spec body ws) as (frames & rest & init & Hin & Hdec & Hinit & Hend).
  exists frames, rest. split; [done|]. split; [done|].
  apply for_loop_early_events.
Qed.

(** X4: when the body breaks, it broke on the last event it was given,
    and every frame after that one is still in the socket, unread. *)
Theorem break_leaves_later_frames_unread (body : json → result bool) (ws : WebSocket) :
  Client.ending (Client.for_loop body ws) = Client.Break →
  ∃ (frames : list string) (rest : list recv_result) (doc : json),
    inbox ws = ((Message <$> frames) ++ rest)%list
    ∧ length frames = length (Client.observed (Client.for_loop body ws))
    ∧ last (Client.observed (Client.for_loop body ws)) = Some doc
    ∧ body doc = Ok true
    ∧ Client.ws_after (Client.for_loop body ws) = with_inbox rest ws
    ∧ Client.gen_after (Client.for_loop body ws) = Client.Suspended.
Proof.
  intros Hbreak.
  destruct (for_loop_spec body ws) as (frames & rest & init & Hin & Hdec & Hinit & Hend).
  rewrite Hbreak in Hend. destruct Hend as (doc & Hobs & Hdoc & Hws).
  exists frames, rest, doc. split; [done|].
  split; [by eapply Forall2_length|].
  split; [by rewrite Hobs, last_snoc|]. split; [done|]. split; [done|].
  clear -Hbreak. unfold Client.for_loop in *.
  revert Hbreak. generalize (@nil json). generalize (length (inbox ws)).
  intros fuel. revert ws. induction fuel as [|fuel IH]; intros ws seen.
  - rewrite for_loop_fuel_unfold. unfold Client.iter_task_stream.
    destruct (ws_recv ws) as [[[text| |e] ws0]|]; simpl; try done.
    destruct (Json.loads text) as [ev|e]; simpl; [|done].
    by destruct (body ev) as [[|]|e].
  - rewrite for_loop_fuel_unfold. unfold Client.iter_task_stream.
    destruct (ws_recv ws) as [[[text| |e] ws0]|]; simpl; try done.
    destruct (Json.loads text) as [ev|e]; simpl; [|done].
    destruct (body ev) as [[|]|e]; simpl; try done. apply IH.
Qed.

Lemma break_leaves_later_frames_unread_witness :
  ∃ (frames : list string) (rest : list recv_result) (doc : json),
    inbox (fresh_socket three_frames) = ((Message <$> frames) ++ rest)%list
    ∧ length frames =
        length (Client.observed (Client.for_loop LiveCompanion.is_terminal
                                   (fresh_socket three_frames)))
    ∧ last (Client.observed (Client.for_loop LiveCompanion.is_terminal
                               (fresh_socket three_frames))) = Some doc
    ∧ LiveCompanion.is_terminal doc = Ok true
    ∧ Client.ws_after (Client.for_loop LiveCompanion.is_terminal
                         (fresh_socket three_frames))
        = with_inbox rest (fresh_socket three_frames)
    ∧ Client.gen_after (Client.for_loop LiveCompanion.is_terminal
                          (fresh_socket three_frames)) = Client.Suspended.
Proof.
  apply (break_leaves_later_frames_unread LiveCompanion.is_terminal
           (fresh_socket three_frames)).
  vm_compute. reflexivity.
Defined.

(** X5: the loop ends without an exception only by [break] or because a
    [None] message arrived; an exception leaves the loop only when the body
    raised it on the last event, when [recv] raised it, or when the next
    frame failed to decode; with no message left the loop blocks.  The
    bound on its iterations is never what stops it. *)
Theorem loop_ending_cases (body : json → result bool) (ws : WebSocket) :
  ∃ (frames : list string) (rest : list recv_result),
    inbox ws = ((Message <$> frames) ++ rest)%list
    ∧ length frames = length (Client.observed (Client.for_loop body ws))
    ∧ match Client.ending (Client.for_loop body ws) with
      | Client.Break =>
          ∃ doc, last (Client.observed (Client.for_loop body ws)) = Some doc
                 ∧ body doc = Ok true
      | Client.Exhausted => ∃ rest', rest = NoMessage :: rest'
      | Client.Blocked => rest = []
      | Client.Propagates e =>
          (∃ doc, last (Client.observed (Client.for_loop body ws)) = Some doc
                  ∧ body doc = Raise e)
          ∨ (∃ rest', rest = RecvRaises e :: rest')
          ∨ (∃ bad rest', rest = Message bad :: rest' ∧ Json.loads bad = Raise e)
      | Client.NoFuel => False
      end.
Proof.
  destruct (for_loop_spec body ws) as (frames & rest & init & Hin & Hdec & Hinit & Hend).
  exists frames, rest. split; [done|]. split; [by eapply Forall2_length|].
  destruct (Client.ending _).
  - destruct Hend as (doc & Hobs & Hdoc & _). exists doc. by rewrite Hobs, last_snoc.
  - destruct Hend as (_ & rest' & -> & _). by exists rest'.
  - destruct Hend as [(doc & Hobs & Hdoc & _)|(_ & rest' & [->|(bad & -> & Hbad)] & _)].
    + left. exists doc. by rewrite Hobs, last_snoc.
    + right. left. by exists rest'.
    + right. right. by exists bad, rest'.
  - by destruct Hend as (_ & -> & _).
  - done.
Qed.

(** ** The loops of the example programs *)

Lemma chat_plan_body_is_detector (doc : json) (b : bool) :
  ChatPlanMain.loop_body doc = Ok b → ChatPlan.is_terminal doc = Ok b.
Proof.
  unfold ChatPlanMain.loop_body, ChatPlan.is_terminal.
  destruct (py_get doc "event" JNull) as [name|e]; simpl; [|done].
  destruct name as [| | | |s| |]; simpl; try done.
  destruct (String.eqb_spec s "overlay") as [->|_]; [|done]. simpl.
  destruct (py_get doc "overlay" (JObj ∅)) as [overlay|e]; simpl; [|done].
  destruct (py_get overlay "source" JNull); simpl; [|done].
  destruct (py_get overlay "data" JNull); simpl; [|done]. done.
Qed.

Lemma live_body_is_detector (doc : json) (b : bool) :
  LiveCompanionMain.loop_body doc = Ok b → LiveCompanion.is_terminal doc = Ok b.
Proof.
  unfold LiveCompanionMain.loop_body.
  by destruct (LiveCompanionMain.pretty_event doc).
Qed.

Lemma chat_plan_body_true (doc : json) :
  ChatPlanMain.loop_body doc = Ok true ↔ reports_success_or_failed doc.
Proof.
  unfold reports_success_or_failed. rewrite <- chat_plan_is_terminal_true. split.
  - apply chat_plan_body_is_detector.
  - unfold ChatPlanMain.loop_body, ChatPlan.is_terminal.
    destruct (py_get doc "event" JNull) as [name|e]; simpl; [|done].
    destruct name as [| | | |s| |]; simpl; try done.
    destruct (String.eqb_spec s "overlay") as [->|_]; [|done]. simpl. done.
Qed.

Lemma live_body_true (doc : json) :
  LiveCompanionMain.loop_body doc = Ok true ↔ reports_success_or_failed doc.
Proof.
  unfold reports_success_or_failed. rewrite <- live_is_terminal_true. split.
  - apply live_body_is_detector.
  - intros Hterm. unfold LiveCompanionMain.loop_body.
    assert (LiveCompanionMain.pretty_event doc = Ok ()) as ->; [|done].
    revert Hterm. unfold LiveCompanion.is_terminal, LiveCompanionMain.pretty_event.
    destruct (py_get doc "event" JNull) as [name|e]; simpl; [|done].
    destruct name as [| | | |s| |]; simpl; try done.
    destruct (String.eqb_spec s "status") as [->|_]; [|done]. simpl.
    destruct doc as [| | | | | |fields]; simpl; try done.
    destruct (fields !! "status") as [[| | | | | |snapshot]|]; simpl; try done.
    by destruct (snapshot !! "status") as [[| | | |value| |]|].
Qed.

Lemma loop_break_iff (body : json → result bool) (ws : WebSocket) :
  (Client.ending (Client.for_loop body ws) = Client.Break ↔
     ∃ doc, last (Client.observed (Client.for_loop body ws)) = Some doc
            ∧ body doc = Ok true)
  ∧ ∀ (i : nat) (doc : json),
      Client.observed (Client.for_loop body ws) !! i = Some doc →
      body doc = Ok true →
      S i = length (Client.observed (Client.for_loop body ws)).
Proof.
  destruct (for_loop_spec body ws) as (frames & rest & init & Hin & Hdec & Hinit & Hend).
  assert (∀ doc, doc ∈ init → body doc = Ok true → False) as Hno.
  { intros doc Hel Htrue. rewrite Forall_forall in Hinit.
    specialize (Hinit doc Hel). congruence. }
  split.
  - split.
    + intros Hbreak. rewrite Hbreak in Hend. destruct Hend as (doc & Hobs & Hdoc & _).
      exists doc. by rewrite Hobs, last_snoc.
    + intros (doc & Hlast & Htrue). destruct (Client.ending _); try done; exfalso.
      * destruct Hend as (Hobs & _). rewrite Hobs in Hlast.
        apply last_Some_elem_of in Hlast. by eapply Hno.
      * destruct Hend as [(d & Hobs & Hd & _)|(Hobs & _)]; rewrite Hobs in Hlast.
        -- rewrite last_snoc in Hlast. simplify_eq. congruence.
        -- apply last_Some_elem_of in Hlast. by eapply Hno.
      * destruct Hend as (Hobs & _). rewrite Hobs in Hlast.
        apply last_Some_elem_of in Hlast. by eapply Hno.
  - intros i doc Hi Htrue.
    pose proof (for_loop_early_events body ws) as Hearly.
    destruct (decide (S i < length (Client.observed (Client.for_loop body ws)))%nat)
      as [Hlt|Hge].
    + specialize (Hearly i doc Hi Hlt). congruence.
    + apply lookup_lt_Some in Hi. lia.
Qed.

(** X6: the loop of chat_plan.py and the loop of live_companion.py leave
    by [break] exactly when the last event they were given is a status event
    reporting [success] or [failed]; no earlier event of the run is one. *)
Theorem example_loops_break_on_first_terminal (ws : WebSocket) :
  (Client.ending (Client.for_loop ChatPlanMain.loop_body ws) = Client.Break ↔
     ∃ doc, last (Client.observed (Client.for_loop ChatPlanMain.loop_body ws)) = Some doc
            ∧ reports_success_or_failed doc)
  ∧ (∀ (i : nat) (doc : json),
       Client.observed (Client.for_loop ChatPlanMain.loop_body ws) !! i = Some doc →
       reports_success_or_failed doc →
       S i = length (Client.observed (Client.for_loop ChatPlanMain.loop_body ws)))
  ∧ (Client.ending (Client.for_loop LiveCompanionMain.loop_body ws) = Client.Break ↔
     ∃ doc, last (Client.observed (Client.for_loop LiveCompanionMain.loop_body ws)) = Some doc
            ∧ reports_success_or_failed doc)
  ∧ (∀ (i : nat) (doc : json),
       Client.observed (Client.for_loop LiveCompanionMain.loop_body ws) !! i = Some doc →
       reports_success_or_failed doc →
       S i = length (Client.observed (Client.for_loop LiveCompanionMain.loop_body ws))).
Proof.
  destruct (loop_break_iff ChatPlanMain.loop_body ws) as [Hc1 Hc2].
  destruct (loop_break_iff LiveCompanionMain.loop_body ws) as [Hl1 Hl2].
  split; [|split; [|split]].
  - rewrite Hc1. by setoid_rewrite chat_plan_body_true.
  - intros i doc Hi Hrep. apply (Hc2 i doc Hi). by apply chat_plan_body_true.
  - rewrite Hl1. by setoid_rewrite live_body_true.
  - intros i doc Hi Hrep. apply (Hl2 i doc Hi). by apply live_body_true.
Qed.

Lemma example_loops_break_on_first_terminal_witness :
  Client.observed (Client.for_loop ChatPlanMain.loop_body (fresh_socket three_frames)) !! 2%nat
    = Some (status_event "success")
  ∧ reports_success_or_failed (status_event "success")
  ∧ 3%nat = length (Client.observed
                      (Client.for_loop ChatPlanMain.loop_body (fresh_socket three_frames))).
Proof.
  assert (reports_success_or_failed (status_event "success")) as Hrep.
  { exists "success". split; [reflexivity|by left]. }
  split; [vm_compute; reflexivity|]. split; [exact Hrep|].
  apply (proj1 (proj2 (example_loops_break_on_first_terminal (fresh_socket three_frames)))
           2%nat (status_event "success")); [vm_compute; reflexivity|exact Hrep].
Defined.

(** ** What the example programs leave behind *)

Lemma chat_keeps_ownership (payload : json) (self : Client.SoulBrowserClient) :
  Client._owns_http (Client.chat payload self).1 = Client._owns_http self.
Proof.
  unfold Client.chat, Client._post.
  by destruct (http_post _ _).
Qed.

Lemma close_after_loop_closed (run : Client.loop_run) :
  (close_after_loop run).2 ≠ Hangs → closed (close_after_loop run).1 = true.
Proof. unfold close_after_loop. by destruct (Client.ending run). Qed.

(** X7: when chat_plan.py ends, normally or with an exception, its HTTP
    client is closed and so is the socket if one was opened. *)
Theorem chat_plan_releases_resources (rt : Runtime) (prompt base_url : string) :
  outcome (ChatPlanMain.main rt base_url prompt) ≠ Hangs →
  state (Client._http (client_after (ChatPlanMain.main rt base_url prompt))) = CLOSED
  ∧ ∀ ws, socket (ChatPlanMain.main rt base_url prompt) = Some ws → closed ws = true.
Proof.
  unfold ChatPlanMain.main.
  pose proof (chat_keeps_ownership (chat_payload prompt)
                (Client.__init__ rt base_url None None)) as Hown.
  destruct (Client.chat _ _) as [client chat]. simpl in Hown.
  assert (state (Client._http (Client.close client)) = CLOSED) as Hclosed.
  { unfold Client.close. by rewrite Hown. }
  destruct (chat ≫= ChatPlanMain.task_id_of) as [task_id|e]; simpl; [|done].
  destruct (truthy task_id); simpl; [|done].
  destruct (Client.open_task_stream _ _ _ _ _) as [ws0|e]; simpl; [|done].
  pose proof (close_after_loop_closed (Client.for_loop ChatPlanMain.loop_body ws0)) as Hws.
  destruct (close_after_loop _) as [ws' [|e|]]; simpl in *; try done.
  + intros _. split; [done|]. intros ws [= <-]. by apply Hws.
  + intros _. split; [done|]. intros ws [= <-]. by apply Hws.
Qed.

Lemma chat_plan_releases_resources_witness :
  let run := ChatPlanMain.main
               (scenario_runtime local_console (chat_answer "t-1") frames_with_malformed)
               scenario_base_url scenario_prompt in
  outcome run = Fails JSONDecodeError
  ∧ state (Client._http (client_after run)) = CLOSED
  ∧ ∀ ws, socket run = Some ws → closed ws = true.
Proof.
  split; [vm_compute; reflexivity|].
  apply (chat_plan_releases_resources
           (scenario_runtime local_console (chat_answer "t-1") frames_with_malformed)
           scenario_prompt scenario_base_url).
  vm_compute. discriminate.
Defined.

(** ** The REST helpers *)

(** X8: [list_recordings] sends no query parameters exactly when no limit
    is given and the state filter is missing or empty.  Otherwise it sends
    [limit] whenever a limit is given (a limit of zero too), [state] only
    when the filter is not empty, and nothing else. *)
Theorem list_recordings_query (limit : option Z) (state : option string) :
  get_url (Rest.list_recordings_request limit state) = "/api/recordings"
  ∧ (get_params (Rest.list_recordings_request limit state) = None ↔
       limit = None ∧ str_truthy state = false)
  ∧ ∀ params, get_params (Rest.list_recordings_request limit state) = Some params →
      params !! "limit" = JInt <$> limit
      ∧ params !! "state" = (if str_truthy state then JStr <$> state else None)
      ∧ ∀ key, key ≠ "limit" → key ≠ "state" → params !! key = None.
Proof.
  split; [done|].
  unfold Rest.list_recordings_request, str_truthy. cbv zeta.
  destruct limit as [n|], state as [s|]; simpl;
    try destruct (String.eqb_spec s "") as [->|Hs]; simpl.
  all: split; [split; [intros H|intros [H1 H2]; try done]|intros params Hp].
  all: try (case_bool_decide as He; simplify_eq).
  all: try (exfalso;
            match goal with
            | He : _ = ∅ |- _ =>
                apply (f_equal (λ m : gmap string json, m !! "limit")) in He
                || apply (f_equal (λ m : gmap string json, m !! "state")) in He
            end; by simplify_map_eq).
  all: try done.
  all: repeat split; try by simplify_map_eq.
  all: intros key Hl Hst; by simplify_map_eq.
Qed.

Lemma list_recordings_query_witness :
  ∃ params, get_params (Rest.list_recordings_request (Some 0%Z) (Some "")) = Some params
            ∧ params !! "limit" = Some (JInt 0)
            ∧ params !! "state" = None.
Proof.
  exists {["limit" := JInt 0]}. split; [vm_compute; reflexivity|].
  destruct (proj2 (proj2 (list_recordings_query (Some 0%Z) (Some "")))
              {["limit" := JInt 0]}) as (Hl & Hs & _);
    [vm_compute; reflexivity|]. by split.
Defined.

Lemma get_returns_document (serve : GetRequest → result Response)
    (request : GetRequest) (self : Client.SoulBrowserClient) (resp : Response)
    (doc : json) :
  state (Client._http self) ≠ CLOSED →
  serve request = Ok resp →
  status_error resp = None →
  Json.loads (content resp) = Ok doc →
  (Rest._get serve request self).2 = Ok doc.
Proof.
  intros Hstate Hserve Hstatus Hdoc. unfold Rest._get, Rest.http_get.
  destruct (state (Client._http self)); try done; simpl;
    rewrite Hserve; simpl; unfold raise_for_status, resp_json;
    rewrite Hstatus; simpl; by rewrite Hdoc.
Qed.

(** X9: when the server's answer is an object without the field a helper
    reads, [list_tasks] returns the empty list, while [get_task_status] and
    [get_task_logs] raise [KeyError]; when the field is there each returns
    its value. *)
Theorem rest_helpers_on_missing_field (serve : GetRequest → result Response)
    (self : Client.SoulBrowserClient) (resp : Response) (fields : gmap string json)
    (task_id : string) (limit : option Z) (since : option string) :
  state (Client._http self) ≠ CLOSED →
  (∀ request, serve request = Ok resp) →
  status_error resp = None →
  Json.loads (content resp) = Ok (JObj fields) →
  (Rest.list_tasks serve limit self).2 = Ok (default (JArr []) (fields !! "tasks"))
  ∧ (Rest.get_task_status serve task_id self).2 =
      match fields !! "status" with Some v => Ok v | None => Raise KeyError end
  ∧ (Rest.get_task_logs serve task_id since self).2 =
      match fields !! "logs" with Some v => Ok v | None => Raise KeyError end.
Proof.
  intros Hstate Hserve Hstatus Hdoc.
  unfold Rest.list_tasks, Rest.get_task_status, Rest.get_task_logs. cbv zeta.
  repeat split.
  - pose proof (get_returns_document serve
      {| get_url := "/api/tasks"; get_params := Rest.limit_params limit |}
      self resp _ Hstate (Hserve _) Hstatus Hdoc) as Hget.
    destruct (Rest._get _ _ _) as [self' r]. simpl in *. by subst r.
  - pose proof (get_returns_document serve
      {| get_url := "/api/tasks/" ++ task_id ++ "/status"; get_params := None |}
      self resp _ Hstate (Hserve _) Hstatus Hdoc) as Hget.
    destruct (Rest._get _ _ _) as [self' r]. simpl in *. by subst r.
  - match goal with
    | |- context [Rest._get serve ?req self] =>
        pose proof (get_returns_document serve req self resp _ Hstate (Hserve _)
                      Hstatus Hdoc) as Hget;
        destruct (Rest._get serve req self) as [self' r]
    end.
    simpl in *. by subst r.
Qed.

Lemma rest_helpers_on_missing_field_witness :
  let self := Client.__init__ (scenario_runtime local_console "{}" []) scenario_base_url
                None None in
  let serve := λ _ : GetRequest, Ok {| status_error := None; content := "{}" |} in
  (Rest.list_tasks serve (Some 5%Z) self).2 = Ok (JArr [])
  ∧ (Rest.get_task_status serve "t-1" self).2 = Raise KeyError
  ∧ (Rest.get_task_logs serve "t-1" None self).2 = Raise KeyError.
Proof.
  assert (state (Client._http (Client.__init__ (scenario_runtime local_console "{}" [])
                                 scenario_base_url None None)) ≠ CLOSED) as Hstate.
  { vm_compute. discriminate. }
  assert (Json.loads "{}" = Ok (JObj ∅)) as Hdoc by (vm_compute; reflexivity).
  pose proof (rest_helpers_on_missing_field
                (λ _ : GetRequest, Ok {| status_error := None; content := "{}" |})
                _ {| status_error := None; content := "{}" |} ∅ "t-1" (Some 5%Z) None
                Hstate (λ _, eq_refl) eq_refl Hdoc) as Hw.
  rewrite !lookup_empty in Hw. exact Hw.
Defined.

(** X10: an error status comes first: when [raise_for_status] raises, a
    helper raises that error whatever the body holds, a body that decodes
    included; with a good status and a body that decodes, the helper returns
    the document.  In both cases the POST was sent. *)
Theorem rest_error_precedence (serve : GetRequest → result Response)
    (self : Client.SoulBrowserClient) (url : string) (payload : json)
    (request : GetRequest) (resp : Response) :
  state (Client._http self) ≠ CLOSED →
  remote (Client._http self)
    {| req_url := url; req_json := payload; req_headers := None |} = Ok resp →
  serve request = Ok resp →
  (∀ e, status_error resp = Some e →
     (Client._post url payload self).2 = Raise e
     ∧ (Rest._get serve request self).2 = Raise e)
  ∧ (∀ doc, status_error resp = None → Json.loads (content resp) = Ok doc →
     (Client._post url payload self).2 = Ok doc
     ∧ (Rest._get serve request self).2 = Ok doc)
  ∧ sent (Client._http (Client._post url payload self).1) =
      (sent (Client._http self)
         ++ [{| req_url := url; req_json := payload; req_headers := None |}])%list.
Proof.
  intros Hstate Hremote Hserve.
  unfold Client._post, Rest._get, http_post, Rest.http_get.
  destruct (state (Client._http self)); try done; simpl;
    rewrite Hremote, Hserve; simpl; unfold raise_for_status, resp_json.
  all: split; [intros e ->; done|]; split; [|done].
  all: intros doc -> ->; done.
Qed.

Lemma rest_error_precedence_witness :
  let refused := {| status_error := Some (TransportError "500 Internal Server Error"); content := "{}" |} in
  let self := Client.__init__ (scenario_runtime local_console "{}" []) scenario_base_url
                (Some {| state := OPENED; sent := []; remote := λ _, Ok refused |}) None in
  Json.loads (content refused) = Ok (JObj ∅)
  ∧ (Client._post "/api/chat" JNull self).2 = Raise (TransportError "500 Internal Server Error")
  ∧ (Rest._get (λ _, Ok refused)
       {| get_url := "/api/tasks"; get_params := None |} self).2
      = Raise (TransportError "500 Internal Server Error").
Proof.
  split; [vm_compute; reflexivity|].
  apply (proj1 (rest_error_precedence
           (λ _, Ok {| status_error := Some (TransportError "500 Internal Server Error"); content := "{}" |})
           (Client.__init__ (scenario_runtime local_console "{}" []) scenario_base_url
              (Some {| state := OPENED; sent := [];
                       remote := λ _, Ok {| status_error := Some (TransportError "500 Internal Server Error");
                                            content := "{}" |} |}) None)
           "/api/chat" JNull {| get_url := "/api/tasks"; get_params := None |}
           {| status_error := Some (TransportError "500 Internal Server Error"); content := "{}" |}
           ltac:(vm_compute; discriminate) eq_refl eq_refl)).
  reflexivity.
Defined.

(** ** Ownership of the HTTP client *)

(** X11: leaving the context manager (or calling [close]) closes the HTTP
    client only when the SDK created it.  A client object passed in by the
    caller is left exactly as it was, for [SoulBrowserClient] and for
    [SoulBrowserGatewayClient]; an HTTP client the SDK created is closed,
    and a request made through it afterwards raises [RuntimeError] and
    sends nothing. *)
Theorem close_respects_ownership (rt : Runtime) (base_url tenant_id : string)
    (http : HttpClient) (cls : option WebSocket) (api_key tenant_token : option string)
    (headers : option (gmap string string)) (url : string) (payload : json) :
  Rest.__exit__ (Client.__init__ rt base_url (Some http) cls) =
    Client.__init__ rt base_url (Some http) cls
  ∧ Client._http (Client.__init__ rt base_url (Some http) cls) = http
  ∧ state (Client._http (Rest.__exit__ (Client.__init__ rt base_url None cls))) = CLOSED
  ∧ Client._post url payload (Rest.__exit__ (Client.__init__ rt base_url None cls)) =
      (Rest.__exit__ (Client.__init__ rt base_url None cls),
       Raise (RuntimeError "Cannot send a request, as the client has been closed."))
  ∧ (∀ self,
       Gateway.__init__ rt tenant_id base_url (Some http) api_key tenant_token headers
         = Ok self →
       Gateway.close self = self ∧ Gateway._http self = http)
  ∧ (∀ self,
       Gateway.__init__ rt tenant_id base_url None api_key tenant_token headers
         = Ok self →
       state (Gateway._http (Gateway.close self)) = CLOSED).
Proof.
  split; [done|]. split; [done|]. split; [done|]. split; [done|].
  split; intros self Hinit; unfold Gateway.__init__ in Hinit;
    destruct (String.eqb tenant_id ""); by simplify_eq.
Qed.

Lemma close_respects_ownership_witness :
  Gateway.__init__ (scenario_runtime local_console rejected_answer [])
    "demo-tenant" scenario_base_url None (Some "secret") None None = Ok keyed_gateway
  ∧ state (Gateway._http (Gateway.close keyed_gateway)) = CLOSED.
Proof.
  split; [reflexivity|].
  apply (proj2 (proj2 (proj2 (proj2 (proj2
           (close_respects_ownership
              (scenario_runtime local_console rejected_answer [])
              scenario_base_url "demo-tenant" (answering rejected_answer) None
              (Some "secret") None None "/api/chat" JNull)))))).
  reflexivity.
Defined.

(** ** The gateway client: validation, headers, configuration *)

(** X12: [run_tool] and [run_plan] check the payload before anything else:
    when the [tool] (respectively [plan]) entry is missing or falsy they
    raise [ValueError], no request is sent and the client is unchanged. *)
Theorem gateway_validates_before_sending (self : Gateway.SoulBrowserGatewayClient)
    (fields : gmap string json) (tenant_id : option string)
    (headers : option (gmap string string)) :
  (truthy (default JNull (fields !! "tool")) = false →
     Gateway.run_tool (JObj fields) tenant_id headers self =
       (self, Raise (ValueError "'tool' is required in the payload")))
  ∧ (truthy (default JNull (fields !! "plan")) = false →
     Gateway.run_plan (JObj fields) tenant_id headers self =
       (self, Raise (ValueError "'plan' is required in the payload"))).
Proof.
  split; intros Hfalsy.
  - unfold Gateway.run_tool. simpl. by rewrite Hfalsy.
  - unfold Gateway.run_plan. simpl. by rewrite Hfalsy.
Qed.

Lemma gateway_validates_before_sending_witness :
  Gateway.run_tool (JObj (<["tool" := JStr ""]> ∅)) None None keyed_gateway =
    (keyed_gateway, Raise (ValueError "'tool' is required in the payload")).
Proof.
  apply (proj1 (gateway_validates_before_sending keyed_gateway
                  (<["tool" := JStr ""]> ∅) None None)).
  vm_compute. reflexivity.
Defined.

Lemma merged_lookup_caller (self : Gateway.SoulBrowserGatewayClient)
    (tenant_id : option string) (overrides : option (gmap string string))
    (key value : string) :
  caller_headers self overrides !! key = Some value →
  merged_headers self tenant_id overrides !! key = Some value.
Proof.
  unfold caller_headers, merged_headers. intros H.
  apply lookup_union_Some_raw in H as [H|[H1 H2]].
  - by apply lookup_union_Some_l.
  - apply lookup_union_Some_raw. right. split; [done|]. by apply lookup_union_Some_l.
Qed.

Lemma build_headers_keys (self : Gateway.SoulBrowserGatewayClient)
    (tenant_id : option string) (overrides : option (gmap string string))
    (key : string) :
  is_Some (Gateway._build_headers self tenant_id overrides !! key) →
  is_Some (merged_headers self tenant_id overrides !! key)
  ∨ key = "Authorization" ∨ key = "x-tenant-token".
Proof.
  destruct (decide (key = "Authorization")) as [|Hauth]; [by right; left|].
  destruct (decide (key = "x-tenant-token")) as [|Htoken]; [by right; right|].
  rewrite build_headers_lookup_other by done. by left.
Qed.

(** X13: the headers of a request keep every header the caller supplied:
    an entry of the per-call overrides, or an entry of the static headers
    whose key the overrides do not use, is in the built headers with its
    value.  Beyond the caller's keys the built headers hold only
    [content-type], [x-tenant-id], [Authorization] and [x-tenant-token]. *)
Theorem built_headers_keep_callers (self : Gateway.SoulBrowserGatewayClient)
    (tenant_id : option string) (overrides : option (gmap string string)) :
  (∀ key value, caller_headers self overrides !! key = Some value →
     Gateway._build_headers self tenant_id overrides !! key = Some value)
  ∧ (∀ key, is_Some (Gateway._build_headers self tenant_id overrides !! key) →
       is_Some (caller_headers self overrides !! key)
       ∨ key = "content-type" ∨ key = "x-tenant-id"
       ∨ key = "Authorization" ∨ key = "x-tenant-token").
Proof.
  split.
  - intros key value Hkey. by apply build_headers_keeps_merged, merged_lookup_caller.
  - intros key Hsome.
    destruct (build_headers_keys self tenant_id overrides key Hsome) as [Hm|[->| ->]];
      [|by right; right; right; left|by right; right; right; right].
    destruct (decide (key = "content-type")) as [|Hct]; [by right; left|].
    destruct (decide (key = "x-tenant-id")) as [|Hti]; [by right; right; left|].
    left. revert Hm. unfold merged_headers, caller_headers.
    rewrite !lookup_union, lookup_insert_ne, lookup_insert_ne, lookup_empty by done.
    by rewrite (right_id_L None union).
Qed.

Lemma built_headers_keep_callers_witness :
  caller_headers keyed_gateway (Some basic_auth) !! "AUTHORIZATION" = Some "Basic abc"
  ∧ Gateway._build_headers keyed_gateway None (Some basic_auth) !! "AUTHORIZATION"
      = Some "Basic abc".
Proof.
  assert (caller_headers keyed_gateway (Some basic_auth) !! "AUTHORIZATION"
          = Some "Basic abc") as Hc by (vm_compute; reflexivity).
  split; [exact Hc|].
  exact (proj1 (built_headers_keep_callers keyed_gateway None (Some basic_auth))
           "AUTHORIZATION" "Basic abc" Hc).
Defined.

(** X14: [content-type] is [application/json] unless the caller supplies
    that key; [x-tenant-token] is the caller's value when the caller
    supplies exactly that key (the test is case-sensitive), otherwise the
    stored tenant token when it is not empty, otherwise absent. *)
Theorem sdk_header_defaults (self : Gateway.SoulBrowserGatewayClient)
    (tenant_id : option string) (overrides : option (gmap string string)) :
  Gateway._build_headers self tenant_id overrides !! "content-type" =
    Some (default "application/json" (caller_headers self overrides !! "content-type"))
  ∧ Gateway._build_headers self tenant_id overrides !! "x-tenant-token" =
      match caller_headers self overrides !! "x-tenant-token" with
      | Some value => Some value
      | None =>
          if str_truthy (Gateway._tenant_token self)
          then Gateway._tenant_token self else None
      end.
Proof.
  split.
  - rewrite build_headers_lookup_other by done.
    unfold merged_headers, caller_headers. rewrite !lookup_union.
    rewrite lookup_insert_ne, lookup_insert_eq by done.
    by destruct (default ∅ overrides !! "content-type"),
      (Gateway._static_headers self !! "content-type").
  - assert (merged_headers self tenant_id overrides !! "x-tenant-token" =
            caller_headers self overrides !! "x-tenant-token") as Hm.
    { unfold merged_headers, caller_headers.
      rewrite !lookup_union, lookup_insert_ne, lookup_insert_ne, lookup_empty by done.
      by rewrite (right_id_L None union). }
    rewrite build_headers_unfold. cbv zeta. rewrite <- Hm. unfold str_truthy.
    set (merged := merged_headers self tenant_id overrides).
    set (lowered := (set_map lower (dom merged) : gset string)).
    assert (∀ headers : gmap string string,
      headers !! "x-tenant-token" = merged !! "x-tenant-token" →
      match Gateway._tenant_token self with
      | Some token =>
          if negb (String.eqb token "") && bool_decide (headers !! "x-tenant-token" = None)
          then <["x-tenant-token" := token]> headers
          else headers
      | None => headers
      end !! "x-tenant-token" =
      match merged !! "x-tenant-token" with
      | Some value => Some value
      | None =>
          if match Gateway._tenant_token self with
             | Some s => negb (String.eqb s "")
             | None => false
             end
          then Gateway._tenant_token self else None
      end) as Htoken.
    { intros headers Hh. destruct (Gateway._tenant_token self) as [token|]; simpl.
      - destruct (negb (String.eqb token "")); simpl.
        + case_bool_decide as Hnone.
          * rewrite lookup_insert_eq. by rewrite <- Hh, Hnone.
          * rewrite Hh in *. by destruct (merged !! "x-tenant-token").
        + rewrite Hh. by destruct (merged !! "x-tenant-token").
      - rewrite Hh. by destruct (merged !! "x-tenant-token"). }
    apply Htoken.
    destruct (Gateway._api_key self) as [k|]; [|done].
    destruct (negb (String.eqb k "") && bool_decide ("authorization" ∉ lowered)); [|done].
    by rewrite lookup_insert_ne.
Qed.

(** X15: [configure_auth] replaces only the credentials it is given; two
    calls amount to one call with the later values where given and the
    earlier ones otherwise, so a stored credential can be replaced but not
    removed.  The tenant, the static headers and the HTTP client stay as
    they were. *)
Theorem configure_auth_composes (self : Gateway.SoulBrowserGatewayClient)
    (key1 key2 token1 token2 : option string) :
  Gateway.configure_auth key2 token2 (Gateway.configure_auth key1 token1 self) =
    Gateway.configure_auth (key2 ∪ key1) (token2 ∪ token1) self
  ∧ Gateway._api_key (Gateway.configure_auth key1 token1 self) =
      key1 ∪ Gateway._api_key self
  ∧ Gateway._tenant_token (Gateway.configure_auth key1 token1 self) =
      token1 ∪ Gateway._tenant_token self
  ∧ Gateway._tenant_id (Gateway.configure_auth key1 token1 self) = Gateway._tenant_id self
  ∧ Gateway._static_headers (Gateway.configure_auth key1 token1 self) =
      Gateway._static_headers self
  ∧ Gateway._http (Gateway.configure_auth key1 token1 self) = Gateway._http self
  ∧ Gateway.configure_auth None None self = self.
Proof.
  destruct self as [base tenant owns http [key0|] [token0|] static];
    destruct key1, key2, token1, token2; repeat split; reflexivity.
Qed.

Lemma token_step_lookup (token : option string) (headers : gmap string string)
    (key : string) :
  match token with
  | Some t =>
      if negb (String.eqb t "") && bool_decide (headers !! "x-tenant-token" = None)
      then <["x-tenant-token" := t]> headers
      else headers
  | None => headers
  end !! key =
  if decide (key = "x-tenant-token") then
    match headers !! "x-tenant-token" with
    | Some value => Some value
    | None => if str_truthy token then token else None
    end
  else headers !! key.
Proof.
  unfold str_truthy. destruct token as [t|].
  - destruct (negb (String.eqb t "")); simpl.
    + case_bool_decide as Hnone.
      * case_decide as Hkey.
        -- subst key. by rewrite lookup_insert_eq, Hnone.
        -- by rewrite lookup_insert_ne.
      * case_decide as Hkey; [subst key|done].
        by destruct (headers !! "x-tenant-token").
    + case_decide as Hkey; [subst key|done].
      by destruct (headers !! "x-tenant-token").
  - case_decide as Hkey; [subst key|done].
    by destruct (headers !! "x-tenant-token").
Qed.

Lemma auth_step_lookup (api_key : option string) (cond : bool)
    (headers : gmap string string) (key : string) :
  match api_key with
  | Some k =>
      if negb (String.eqb k "") && cond
      then <["Authorization" := "Bearer " ++ k]> headers
      else headers
  | None => headers
  end !! key =
  if decide (key = "Authorization") then
    match api_key with
    | Some k =>
        if negb (String.eqb k "") && cond then Some ("Bearer " ++ k)
        else headers !! "Authorization"
    | None => headers !! "Authorization"
    end
  else headers !! key.
Proof.
  destruct api_key as [k|].
  - destruct (negb (String.eqb k "") && cond).
    + case_decide as Hkey.
      * subst key. by rewrite lookup_insert_eq.
      * by rewrite lookup_insert_ne.
    + by case_decide as Hkey; [subst key|].
  - by case_decide as Hkey; [subst key|].
Qed.

Lemma merged_after_set_tenant (self : Gateway.SoulBrowserGatewayClient)
    (new_tenant : string) (tenant_id : option string)
    (overrides : option (gmap string string)) (key : string) :
  new_tenant ≠ "" → key ≠ "x-tenant-id" →
  merged_headers (Gateway.set_tenant new_tenant self).1 tenant_id overrides !! key =
    merged_headers self tenant_id overrides !! key.
Proof.
  intros Hne Hkey. unfold Gateway.set_tenant.
  destruct (String.eqb_spec new_tenant "") as [|_]; [done|]. simpl.
  unfold merged_headers. simpl. rewrite !lookup_union.
  by rewrite !(lookup_insert_ne _ "x-tenant-id" key) by done.
Qed.

Lemma lowered_after_set_tenant (self : Gateway.SoulBrowserGatewayClient)
    (new_tenant : string) (tenant_id : option string)
    (overrides : option (gmap string string)) :
  new_tenant ≠ "" →
  (set_map lower
     (dom (merged_headers (Gateway.set_tenant new_tenant self).1 tenant_id overrides))
   : gset string)
  = set_map lower (dom (merged_headers self tenant_id overrides)).
Proof.
  intros Hne. f_equal. apply set_eq. intros k. rewrite !elem_of_dom.
  destruct (decide (k = "x-tenant-id")) as [->|Hk].
  - unfold Gateway.set_tenant.
    destruct (String.eqb_spec new_tenant "") as [|_]; [done|]. simpl.
    unfold merged_headers. simpl. rewrite !lookup_union, !lookup_insert_eq.
    destruct (default ∅ overrides !! "x-tenant-id"),
      (Gateway._static_headers self !! "x-tenant-id"); simpl; split; intros _; eauto.
  - by rewrite merged_after_set_tenant.
Qed.

(** X16: a successful [set_tenant] changes the tenant and nothing else:
    the headers built afterwards differ from those built before at most in
    [x-tenant-id], and that header names the new tenant unless the call or
    the caller's headers name another. *)
Theorem set_tenant_changes_only_tenant_header (self : Gateway.SoulBrowserGatewayClient)
    (new_tenant : string) (overrides : option (gmap string string)) :
  new_tenant ≠ "" →
  (Gateway.set_tenant new_tenant self).2 = Ok ()
  ∧ (∀ tenant_id key, key ≠ "x-tenant-id" →
       Gateway._build_headers (Gateway.set_tenant new_tenant self).1 tenant_id overrides
         !! key = Gateway._build_headers self tenant_id overrides !! key)
  ∧ (caller_headers self overrides !! "x-tenant-id" = None →
     Gateway._build_headers (Gateway.set_tenant new_tenant self).1 None overrides
       !! "x-tenant-id" = Some new_tenant).
Proof.
  intros Hne. split; [by apply set_tenant_checks|]. split.
  - intros tenant_id key Hkey.
    assert (Gateway._api_key (Gateway.set_tenant new_tenant self).1
            = Gateway._api_key self) as Hapi.
    { unfold Gateway.set_tenant. by destruct (String.eqb new_tenant ""). }
    assert (Gateway._tenant_token (Gateway.set_tenant new_tenant self).1
            = Gateway._tenant_token self) as Htok.
    { unfold Gateway.set_tenant. by destruct (String.eqb new_tenant ""). }
    rewrite !build_headers_unfold. cbv zeta.
    rewrite Hapi, Htok, lowered_after_set_tenant by done.
    rewrite !token_step_lookup, !auth_step_lookup.
    rewrite !(merged_after_set_tenant self new_tenant tenant_id overrides) by done.
    done.
  - intros Hcaller. rewrite build_headers_lookup_other by done.
    unfold Gateway.set_tenant.
    destruct (String.eqb_spec new_tenant "") as [|_]; [done|]. simpl.
    unfold merged_headers, caller_headers in *. simpl.
    rewrite lookup_union in Hcaller.
    rewrite !lookup_union, lookup_insert_eq.
    by destruct (default ∅ overrides !! "x-tenant-id"),
      (Gateway._static_headers self !! "x-tenant-id").
Qed.

Lemma set_tenant_changes_only_tenant_header_witness :
  Gateway._build_headers (Gateway.set_tenant "other-tenant" keyed_gateway).1 None None
    !! "x-tenant-id" = Some "other-tenant".
Proof.
  apply (proj2 (proj2 (set_tenant_changes_only_tenant_header keyed_gateway
                         "other-tenant" None ltac:(discriminate)))).
  vm_compute. reflexivity.
Defined.

(** X17: on a successful response whose body is JSON but not an object,
    [run_tool] returns the decoded value as it is, whereas [run_plan] raises
    [TypeError]; both have sent their request. *)
Theorem run_plan_requires_object (self : Gateway.SoulBrowserGatewayClient)
    (payload value doc : json) (tenant_id : option string)
    (headers : option (gmap string string)) (resp : Response) :
  truthy value = true →
  state (Gateway._http self) ≠ CLOSED →
  (∀ request, remote (Gateway._http self) request = Ok resp) →
  status_error resp = None →
  Json.loads (content resp) = Ok doc →
  (∀ fields, doc ≠ JObj fields) →
  (py_get payload "tool" JNull = Ok value →
     (Gateway.run_tool payload tenant_id headers self).2 = Ok doc)
  ∧ (py_get payload "plan" JNull = Ok value →
     (Gateway.run_plan payload tenant_id headers self).2 = Raise TypeError).
Proof.
  intros Htruthy Hstate Hremote Hstatus Hdoc Hnot.
  split; intros Hget.
  - unfold Gateway.run_tool. rewrite Hget, Htruthy. simpl.
    unfold Gateway.post_json, http_post.
    destruct (state (Gateway._http self)); try done; simpl;
      rewrite Hremote; simpl; unfold raise_for_status, resp_json;
      rewrite Hstatus; simpl; by rewrite Hdoc.
  - unfold Gateway.run_plan. rewrite Hget, Htruthy. simpl.
    unfold Gateway.post_json, http_post.
    destruct (state (Gateway._http self)); try done; simpl;
      rewrite Hremote; simpl; unfold raise_for_status, resp_json;
      rewrite Hstatus; simpl; rewrite Hdoc; simpl;
      destruct doc; try done; by destruct (Hnot fields).
Qed.

Lemma run_plan_requires_object_witness :
  let self :=
    {| Gateway._base_url := scenario_base_url; Gateway._tenant_id := "demo-tenant";
       Gateway._owns_http := true; Gateway._http := answering "[1]";
       Gateway._api_key := None; Gateway._tenant_token := None;
       Gateway._static_headers := ∅ |} in
  (Gateway.run_plan (JObj (<["plan" := JStr "p"]> ∅)) None None self).2 = Raise TypeError.
Proof.
  apply (proj2 (run_plan_requires_object
           {| Gateway._base_url := scenario_base_url; Gateway._tenant_id := "demo-tenant";
              Gateway._owns_http := true; Gateway._http := answering "[1]";
              Gateway._api_key := None; Gateway._tenant_token := None;
              Gateway._static_headers := ∅ |}
           (JObj (<["plan" := JStr "p"]> ∅)) (JStr "p") (JArr [JInt 1]) None None
           {| status_error := None; content := "[1]" |}
           eq_refl ltac:(discriminate) (λ _, eq_refl) eq_refl
           ltac:(vm_compute; reflexivity) ltac:(discriminate))).
  vm_compute. reflexivity.
Defined.

(** ** Base URLs *)

Lemma append_cons (c : ascii) (s t : string) : String c s ++ t = String c (s ++ t).
Proof. reflexivity. Qed.

Lemma append_empty_r (s : string) : s ++ "" = s.
Proof. induction s as [|c s IH]; [done|]. by rewrite append_cons, IH. Qed.

Lemma append_assoc (s t u : string) : (s ++ t) ++ u = s ++ (t ++ u).
Proof. induction s as [|c s IH]; [done|]. by rewrite !append_cons, IH. Qed.

Lemma rstrip_slash_snoc (s : string) : rstrip_slash (s ++ "/") = rstrip_slash s.
Proof.
  induction s as [|c s IH]; [reflexivity|].
  rewrite append_cons. simpl. by rewrite IH.
Qed.

Lemma rstrip_slash_slashes (s : string) (n : nat) :
  rstrip_slash (s ++ slashes n) = rstrip_slash s.
Proof.
  revert s. induction n as [|n IH]; intros s; simpl.
  - by rewrite append_empty_r.
  - change (String "/" (slashes n)) with ("/" ++ slashes n).
    rewrite <- append_assoc, IH. apply rstrip_slash_snoc.
Qed.

Lemma append_slash_not_empty (t : string) : t ++ "/" ≠ "".
Proof. by destruct t. Qed.

Lemma rstrip_slash_no_slash_end (s : string) :
  ∀ t, rstrip_slash s ≠ t ++ "/".
Proof.
  induction s as [|c s IH]; intros t.
  - simpl. intros H. by apply (append_slash_not_empty t).
  - simpl. destruct (rstrip_slash s) as [|c' r] eqn:Hr.
    + destruct (Ascii.eqb_spec c "/") as [->|Hc].
      * intros H. by apply (append_slash_not_empty t).
      * destruct t as [|c0 t].
        -- change ("" ++ "/") with "/". congruence.
        -- rewrite append_cons. intros [= _ Ht].
           by apply (append_slash_not_empty t).
    + destruct t as [|c0 t].
      * change ("" ++ "/") with "/". congruence.
      * rewrite append_cons. intros [= -> Ht]. by apply (IH t).
Qed.

(** X18: slashes at the end of [base_url] do not matter: both clients
    are built exactly as from the URL without them, the stored base URL
    never ends with a slash, and [to_ws_url] gives the same socket URL. *)
Theorem trailing_slashes_are_ignored (rt : Runtime) (base_url : string) (n : nat)
    (http : option HttpClient) (cls : option WebSocket) (tenant_id : string)
    (api_key tenant_token : option string) (headers : option (gmap string string))
    (stream_path : string) :
  Client.__init__ rt (base_url ++ slashes n) http cls = Client.__init__ rt base_url http cls
  ∧ Gateway.__init__ rt tenant_id (base_url ++ slashes n) http api_key tenant_token headers
    = Gateway.__init__ rt tenant_id base_url http api_key tenant_token headers
  ∧ GatewayPlanDemo.to_ws_url (base_url ++ slashes n) stream_path
    = GatewayPlanDemo.to_ws_url base_url stream_path
  ∧ ∀ t, Client._base_url (Client.__init__ rt base_url http cls) ≠ t ++ "/".
Proof.
  unfold Client.__init__, Gateway.__init__, GatewayPlanDemo.to_ws_url.
  rewrite rstrip_slash_slashes. repeat split. simpl. apply rstrip_slash_no_slash_end.
Qed.



(** ** observations.py *)

Lemma first_running_spec (tasks : list json) :
  Forall listed_task tasks →
  Observations.first_running tasks = Ok (find_first is_running tasks ≫= task_id_field).
Proof.
  induction 1 as [|task tasks (fields & -> & [id Hid] & Hstatus) _ IH]; [done|].
  simpl. rewrite Hid.
  destruct (fields !! "last_status") as [[| | | |status| |]|]; simpl in *; try done.
  destruct (String.eqb_spec status "") as [->|Hne]; simpl; [done|].
  destruct (String.eqb (lower status) "running"); [|done].
  simpl. by rewrite Hid.
Qed.

(** X20: with a task identifier on the command line [resolve_task_id]
    returns it and sends no request.  Without one it lists the tasks: when
    the answer has no [tasks] field or an empty list it raises
    [RuntimeError]; otherwise it returns the identifier of the first task
    whose [last_status] is [running] in any letter case, and the identifier
    of the first task when none is running. *)
Theorem resolve_task_id_choice (serve : GetRequest → result Response)
    (client : Client.SoulBrowserClient) (resp : Response) (fields : gmap string json) :
  (∀ program task_id more,
     Observations.resolve_task_id (program :: task_id :: more) serve client =
       (client, Ok (JStr task_id)))
  ∧ (state (Client._http client) ≠ CLOSED →
     serve {| get_url := "/api/tasks"; get_params := Some {["limit" := JInt 5]} |} = Ok resp →
     status_error resp = None →
     Json.loads (content resp) = Ok (JObj fields) →
     ∀ program, (length program ≤ 1)%nat →
       (fields !! "tasks" = None ∨ fields !! "tasks" = Some (JArr []) →
          (Observations.resolve_task_id program serve client).2 =
            Raise (RuntimeError "No tasks available; pass a task id as the first argument."))
       ∧ (∀ first others,
            fields !! "tasks" = Some (JArr (first :: others)) →
            Forall listed_task (first :: others) →
            ∃ task_id,
              task_id_field (default first (find_first is_running (first :: others)))
                = Some task_id
              ∧ (Observations.resolve_task_id program serve client).2 = Ok task_id)).
Proof.
  split; [done|].
  intros Hstate Hserve Hstatus Hdoc program Hlen.
  assert ((Rest.list_tasks serve (Some 5%Z) client).2
          = Ok (default (JArr []) (fields !! "tasks"))) as Hlist.
  { unfold Rest.list_tasks.
    pose proof (get_returns_document serve
      {| get_url := "/api/tasks"; get_params := Rest.limit_params (Some 5%Z) |}
      client resp _ Hstate Hserve Hstatus Hdoc) as Hget.
    destruct (Rest._get _ _ _) as [self' r]. simpl in *. by subst r. }
  split.
  - intros Hnone. unfold Observations.resolve_task_id.
    destruct program as [|p [|t more]]; [| |simpl in Hlen; lia].
    all: destruct (Rest.list_tasks _ _ _) as [client' listed]; simpl in *; subst listed;
      by destruct Hnone as [-> | ->].
  - intros first others Htasks Hall. unfold Observations.resolve_task_id.
    assert (∃ id, task_id_field (default first (find_first is_running (first :: others)))
                  = Some id
                  ∧ (find_first is_running (first :: others) ≫= task_id_field = Some id
                     ∨ find_first is_running (first :: others) = None
                       ∧ task_id_field first = Some id)) as (id & Hid & Hcase).
    { destruct (find_first is_running (first :: others)) as [task|] eqn:Hfind; simpl.
      - assert (listed_task task) as (f & -> & [id Hid] & _).
        { clear -Hfind Hall. induction Hall as [|x l Hx _ IH]; [done|].
          simpl in Hfind. destruct (is_running x); [by simplify_eq|by apply IH]. }
        exists id. simpl. split; [done|by left].
      - inversion Hall as [|? ? (f & -> & [id Hid] & _) _]; subst.
        exists id. simpl. split; [done|]. right. done. }
    exists id. split; [done|].
    destruct program as [|p [|t more]]; [| |simpl in Hlen; lia].
    all: destruct (Rest.list_tasks _ _ _) as [client' listed]; simpl in Hlist;
      subst listed; rewrite Htasks;
      cbv [snd mbind result_bind default from_option Datatypes.id Observations.py_list];
      rewrite (first_running_spec _ Hall); simpl.
    all: destruct Hcase as [Hsome|[Hnone Hfirst]].
    all: try (simpl in Hsome; rewrite Hsome; done).
    all: simpl in Hnone; rewrite Hnone; simpl;
      destruct first; simpl in *; try done; by rewrite Hfirst.
Qed.

Lemma resolve_task_id_choice_witness :
  ∃ task_id,
    task_id_field (default (JObj (<["task_id" := JStr "t-1"]>
                                    (<["last_status" := JStr "success"]> ∅)))
                     (find_first is_running two_tasks)) = Some task_id
    ∧ (Observations.resolve_task_id ["observations.py"]
         (λ _, Ok two_tasks_response) observations_client).2 = Ok task_id.
Proof.
  assert (Forall listed_task two_tasks) as Hall.
  { repeat constructor; eexists; (split; [reflexivity|]);
      (split; [vm_compute; eauto|vm_compute; done]). }
  refine (proj2 (proj2 (resolve_task_id_choice (λ _, Ok two_tasks_response)
                          observations_client two_tasks_response
                          (<["tasks" := JArr two_tasks]> ∅))
                   _ eq_refl eq_refl _ ["observations.py"] _) _ _ _ Hall).
  - vm_compute. discriminate.
  - vm_compute. reflexivity.
  - simpl. lia.
  - vm_compute. reflexivity.
Defined.

(** ** Opening the stream *)

(** X21: an explicit, non-empty [path] decides the socket URL whatever
    the task identifier and [via_gateway] are; an empty [path] counts as
    none.  Without a WebSocket class the call raises [RuntimeError]
    whatever the other arguments are, and a socket that is returned is the
    new socket of the class with only its URL set. *)
Theorem open_task_stream_path_choice (rt : Runtime) (self : Client.SoulBrowserClient)
    (task_id task_id' : string) (via_gateway via_gateway' : bool) (path : string) :
  (path ≠ "" →
     Client.open_task_stream rt self task_id via_gateway (Some path) =
       Client.open_task_stream rt self task_id' via_gateway' (Some path))
  ∧ Client.open_task_stream rt self task_id via_gateway (Some "") =
      Client.open_task_stream rt self task_id via_gateway None
  ∧ (Client._websocket_class self = None →
     ∀ p, ∃ msg, Client.open_task_stream rt self task_id via_gateway p =
                   Raise (RuntimeError msg))
  ∧ (∀ p ws, Client.open_task_stream rt self task_id via_gateway p = Ok ws →
       ∃ cls url, Client._websocket_class self = Some cls
                  ∧ ws = {| connected_to := Some url; handshake := handshake cls;
                            inbox := inbox cls; closed := closed cls |}
                  ∧ Client._build_ws_url rt self
                      (str_or p (if via_gateway then "/v1/tasks/" ++ task_id ++ "/stream"
                                 else "/api/tasks/" ++ task_id ++ "/stream")) = Ok url).
Proof.
  unfold Client.open_task_stream. split; [|split; [|split]].
  - intros Hpath. destruct (Client._websocket_class self); [|done].
    unfold str_or. by destruct (String.eqb_spec path "").
  - done.
  - intros -> p. eauto.
  - intros p ws. destruct (Client._websocket_class self) as [cls|]; [|done].
    destruct (Client._build_ws_url rt self _) as [url|e] eqn:Hurl; [|done].
    cbv [mbind result_bind]. unfold ws_connect.
    destruct (handshake cls) eqn:Hhs; [done|].
    intros [= <-]. exists cls, url. by rewrite Hhs.
Qed.

Lemma open_task_stream_path_choice_witness :
  let rt := scenario_runtime local_console (chat_answer "t-1") three_frames in
  let self := Client.__init__ rt scenario_base_url None None in
  Client.open_task_stream rt self "t-1" false (Some "/custom") =
    Client.open_task_stream rt self "t-2" true (Some "/custom").
Proof.
  apply (proj1 (open_task_stream_path_choice
                  (scenario_runtime local_console (chat_answer "t-1") three_frames)
                  (Client.__init__
                     (scenario_runtime local_console (chat_answer "t-1") three_frames)
                     scenario_base_url None None)
                  "t-1" "t-2" false true "/custom")).
  discriminate.
Defined.

(** ** Status events without a status value *)

(** X22: on a status event that carries no textual status value (no
    snapshot, a snapshot that is not a [dict], or a status that is missing
    or not a [str]) the loop of live_companion.py raises [AttributeError],
    from [pretty_event]; the loop of chat_plan.py goes on when the snapshot
    or its status is merely missing. *)
Theorem status_event_without_value (doc : json) :
  is_status_event doc = true →
  status_of doc = None →
  LiveCompanionMain.loop_body doc = Raise AttributeError
  ∧ (∀ fields, doc = JObj fields →
       fields !! "status" = None
       ∨ (∃ snapshot, fields !! "status" = Some (JObj snapshot)
                      ∧ snapshot !! "status" = None) →
       ChatPlanMain.loop_body doc = Ok false).
Proof.
  unfold status_of, is_status_event, event_kind, LiveCompanionMain.loop_body,
    LiveCompanionMain.pretty_event, ChatPlanMain.loop_body, ChatPlan.is_terminal.
  destruct doc as [| | | | | |fields]; try done. simpl.
  destruct (fields !! "event") as [kind|]; [|done]. simpl.
  destruct kind as [| | | |s| |]; simpl; try done.
  intros Hs. apply String.eqb_eq in Hs as ->. simpl.
  intros Hnone. split.
  - destruct (fields !! "status") as [[| | | | | |snapshot]|]; simpl in *; try done.
    by destruct (snapshot !! "status") as [[| | | |value| |]|].
  - intros f [= <-] [Hmiss|(snapshot & Hsnap & Hmiss)].
    + by rewrite Hmiss.
    + rewrite Hsnap. simpl. by rewrite Hmiss.
Qed.

Lemma status_event_without_value_witness :
  LiveCompanionMain.loop_body
    (JObj (<["event" := JStr "status"]> (<["status" := JObj ∅]> ∅)))
    = Raise AttributeError
  ∧ ChatPlanMain.loop_body
      (JObj (<["event" := JStr "status"]> (<["status" := JObj ∅]> ∅))) = Ok false.
Proof.
  assert (is_status_event
            (JObj (<["event" := JStr "status"]> (<["status" := JObj ∅]> ∅))) = true)
    as Hkind by (vm_compute; reflexivity).
  assert (status_of
            (JObj (<["event" := JStr "status"]> (<["status" := JObj ∅]> ∅))) = None)
    as Hnone by (vm_compute; reflexivity).
  destruct (status_event_without_value _ Hkind Hnone) as [Hlive Hchat].
  split; [exact Hlive|].
  apply (Hchat _ eq_refl). right. exists ∅. split; vm_compute; reflexivity.
Defined.
